(** * Day planner of the AI routine optimizer: [scheduler.py]

    A shallow embedding of [plan_day] and [format_blocks] together with the
    part of Python's [datetime] module they rely on, and the properties of
    the planner stated in the design document.

    Conventions.
    - A naive [datetime] is the number of microseconds elapsed since
      0001-01-01 00:00:00, the resolution and origin of Python's type; the
      bounded range of the type is kept, so that [datetime + timedelta]
      raises [OverflowError] exactly where Python does.  Time zones are not
      modelled: the parser is taken to return naive values, so the
      [TypeError] that Python raises when a timestamp with a time zone is
      compared with one without is outside the model.
    - [dateutil.parser.parse] is an external library: the planner is
      parameterised by it.
    - Python exceptions are values of [exn]; a computation that may raise
      has type [exn E + A]. *)

From Stdlib Require Import ZArith List String Ascii Bool Lia.
From Stdlib Require Import Permutation Sorted.
Import ListNotations.
Open Scope string_scope.
Open Scope list_scope.
Open Scope Z_scope.

(** ** Exceptions

    The exceptions of the planner on timestamps without time zone: the
    parser's own, and the [OverflowError] of [datetime] arithmetic. *)

Inductive exn (E : Type) : Type :=
| ParserError (e : E)
| OverflowError.
Arguments ParserError {E} e.
Arguments OverflowError {E}.

Definition ret {E A : Type} (a : A) : exn E + A := inr a.
Definition raise {E A : Type} (x : exn E) : exn E + A := inl x.
Definition bind {E A B : Type} (m : exn E + A) (k : A -> exn E + B) : exn E + B :=
  match m with
  | inl x => inl x
  | inr a => k a
  end.

Notation "x <- m ;; k" := (bind m (fun x => k))
  (at level 61, m at next level, right associativity).

(** ** The fragment of [datetime] used by the planner *)

Definition datetime := Z.
Definition timedelta := Z.

Definition US_PER_MINUTE : Z := 60000000.
Definition US_PER_HOUR : Z := 3600000000.
Definition US_PER_DAY : Z := 86400000000.

(** [date.max.toordinal()], the ordinal of 9999-12-31. *)
Definition MAXORDINAL : Z := 3652059.
(** First microsecond past [datetime.max]. *)
Definition DATETIME_END : Z := MAXORDINAL * US_PER_DAY.
(** [timedelta.max.days]. *)
Definition MAX_DELTA_DAYS : Z := 999999999.

Definition representable (t : Z) : Prop := 0 <= t < DATETIME_END.
Definition representableb (t : Z) : bool := (0 <=? t) && (t <? DATETIME_END).

(** [timedelta(minutes=m)]: the day count of the normalised value has to
    lie within [-999999999, 999999999]. *)
Definition minutes_ok (m : Z) : Prop :=
  - MAX_DELTA_DAYS <= m / 1440 <= MAX_DELTA_DAYS.
Definition minutes_okb (m : Z) : bool :=
  (- MAX_DELTA_DAYS <=? m / 1440) && (m / 1440 <=? MAX_DELTA_DAYS).

Definition timedelta_minutes {E : Type} (m : Z) : exn E + timedelta :=
  if minutes_okb m then ret (m * US_PER_MINUTE) else raise OverflowError.

(** [timedelta(days=1)]. *)
Definition one_day : timedelta := US_PER_DAY.

(** [datetime.__add__]. *)
Definition dt_add {E : Type} (t : datetime) (d : timedelta) : exn E + datetime :=
  if representableb (t + d) then ret (t + d) else raise OverflowError.

(** Calendar arithmetic of [datetime(y, m, d, hh, mm)], proleptic Gregorian. *)
Definition is_leap (y : Z) : bool :=
  (y mod 4 =? 0) && (negb (y mod 100 =? 0) || (y mod 400 =? 0)).

Definition days_before_year (y : Z) : Z :=
  let p := y - 1 in p * 365 + p / 4 - p / 100 + p / 400.

Definition days_in_month (y m : Z) : Z :=
  if m =? 2 then (if is_leap y then 29 else 28)
  else if (m =? 4) || (m =? 6) || (m =? 9) || (m =? 11) then 30
  else 31.

Definition days_before_month (y m : Z) : Z :=
  fold_right Z.add 0
    (map (days_in_month y) (map Z.of_nat (seq 1 (Z.to_nat (m - 1))))).

Definition ymd2ord (y m d : Z) : Z :=
  days_before_year y + days_before_month y m + d.

Definition mk_datetime (y m d hh mm : Z) : datetime :=
  (ymd2ord y m d - 1) * US_PER_DAY + hh * US_PER_HOUR + mm * US_PER_MINUTE.

Definition hour (t : datetime) : Z := (t / US_PER_HOUR) mod 24.
Definition minute (t : datetime) : Z := (t / US_PER_MINUTE) mod 60.

(** ** [strftime('%I:%M %p')] *)

Definition digit (n : Z) : ascii := ascii_of_N (Z.to_N (48 + n)).

Definition two_digits (n : Z) : string :=
  String (digit (n / 10)) (String (digit (n mod 10)) EmptyString).

(** [%I]: the hour on a 12-hour clock, 01 to 12. *)
Definition hour12 (t : datetime) : Z :=
  if hour t mod 12 =? 0 then 12 else hour t mod 12.

(** [%p] in the C locale. *)
Definition am_pm (t : datetime) : string :=
  if hour t <? 12 then "AM" else "PM".

Definition strftime_I_M_p (t : datetime) : string :=
  (two_digits (hour12 t) ++ ":" ++ two_digits (minute t) ++ " " ++ am_pm t)%string.

(** ** Data model: [Task] and [Block] *)

Module Task.
Record t : Type := mk { name : string; duration : Z; priority : Z }.
End Task.

Module Block.
Record t : Type := mk { start : datetime; end_ : datetime; name : string }.
End Block.

(** ** [sorted(tasks, key=lambda t: (-t.priority, -t.duration))]

    [sorted] is Python's builtin: an ascending, stable sort that compares
    keys with [<] only.  It is modelled by a stable insertion sort; tuples
    compare lexicographically. *)

Definition sort_key (t : Task.t) : Z * Z := (- Task.priority t, - Task.duration t).

Definition tuple_lt (a b : Z * Z) : bool :=
  (fst a <? fst b) || ((fst a =? fst b) && (snd a <? snd b)).

Fixpoint insert_task (x : Task.t) (l : list Task.t) : list Task.t :=
  match l with
  | [] => [x]
  | y :: ys =>
      if tuple_lt (sort_key y) (sort_key x) then y :: insert_task x ys
      else x :: y :: ys
  end.

Definition sorted (l : list Task.t) : list Task.t := fold_right insert_task [] l.

(** ** [plan_day] *)

(** The loop variables [cur], [focus] and [plan]. *)
Record state : Type := mkState { cur : datetime; focus : Z; plan : list Block.t }.

Definition SHORT_BREAK : string := "Short Break".
Definition FREE_TIME : string := "Free Time / Buffer".

Section Planner.

(** [dateutil.parser.parse]: a naive timestamp, or the exception raised. *)
Variable parse_error : Type.
Variable parse : string -> parse_error + datetime.

Definition parse_time (s : string) : exn parse_error + datetime :=
  match parse s with
  | inl e => raise (ParserError e)
  | inr t => ret t
  end.

(** Lines 18-21: the day window. *)
Definition day_window (wake_time sleep_time : string) : exn parse_error + datetime * datetime :=
  start <- parse_time wake_time ;;
  end_ <- parse_time sleep_time ;;
  if end_ <=? start then
    end' <- dt_add end_ one_day ;;
    ret (start, end')
  else ret (start, end_).

(** Lines 29-32: the break check.  [and] evaluates its right operand only
    when the left one holds. *)
Definition break_due (end_ : datetime) (break_every break_len : Z) (st : state)
  : exn parse_error + bool :=
  if focus st >=? break_every then
    d <- timedelta_minutes break_len ;;
    c <- dt_add (cur st) d ;;
    ret (c <=? end_)
  else ret false.

Definition take_break (end_ : datetime) (break_every break_len : Z) (st : state)
  : exn parse_error + state :=
  due <- break_due end_ break_every break_len st ;;
  if due : bool then
    d <- timedelta_minutes break_len ;;
    b_end <- dt_add (cur st) d ;;
    ret (mkState b_end 0 (plan st ++ [Block.mk (cur st) b_end SHORT_BREAK]))
  else ret st.

(** Lines 34-38: the placement of one task. *)
Definition place_task (end_ : datetime) (st : state) (t : Task.t) : exn parse_error + state :=
  tlen <- timedelta_minutes (Task.duration t) ;;
  c <- dt_add (cur st) tlen ;;
  if c <=? end_ then
    b_end <- dt_add (cur st) tlen ;;
    cur' <- dt_add (cur st) tlen ;;
    ret (mkState cur' (focus st + Task.duration t)
           (plan st ++ [Block.mk (cur st) b_end (Task.name t)]))
  else ret st.

(** Lines 28-38: the [for] loop. *)
Fixpoint run_tasks (end_ : datetime) (break_every break_len : Z)
    (tasks : list Task.t) (st : state) : exn parse_error + state :=
  match tasks with
  | [] => ret st
  | t :: rest =>
      st1 <- take_break end_ break_every break_len st ;;
      st2 <- place_task end_ st1 t ;;
      run_tasks end_ break_every break_len rest st2
  end.

(** Lines 40-42: the trailing buffer. *)
Definition close_plan (end_ : datetime) (st : state) : list Block.t :=
  if cur st <? end_ then plan st ++ [Block.mk (cur st) end_ FREE_TIME]
  else plan st.

(** Lines 23-42, once the window is known. *)
Definition schedule (start end_ : datetime) (ordered : list Task.t)
    (break_every break_len : Z) : exn parse_error + list Block.t :=
  st <- run_tasks end_ break_every break_len ordered (mkState start 0 []) ;;
  ret (close_plan end_ st).

Definition plan_day (wake_time sleep_time : string) (tasks : list Task.t)
    (break_every break_len : Z) : exn parse_error + list Block.t :=
  w <- day_window wake_time sleep_time ;;
  schedule (fst w) (snd w) (sorted tasks) break_every break_len.

End Planner.

Arguments parse_time {parse_error} parse s.
Arguments day_window {parse_error} parse wake_time sleep_time.
Arguments break_due {parse_error} end_ break_every break_len st.
Arguments take_break {parse_error} end_ break_every break_len st.
Arguments place_task {parse_error} end_ st t.
Arguments run_tasks {parse_error} end_ break_every break_len tasks st.
Arguments schedule {parse_error} start end_ ordered break_every break_len.
Arguments plan_day {parse_error} parse wake_time sleep_time tasks break_every break_len.

(** ** [format_blocks] *)

(** One row of the table: the dictionary with keys ["Time"] and ["Task"]. *)
Record row : Type := mkRow { Time : string; Task_ : string }.

(** U+2013, the dash between the two clock readings, in UTF-8. *)
Definition EN_DASH : string :=
  String (ascii_of_nat 226) (String (ascii_of_nat 128) (String (ascii_of_nat 147) EmptyString)).

Definition format_block (b : Block.t) : row :=
  mkRow (strftime_I_M_p (Block.start b) ++ EN_DASH ++ strftime_I_M_p (Block.end_ b))%string
        (Block.name b).

Definition format_blocks (blocks : list Block.t) : list row := map format_block blocks.

(** ** Sample values of [dateutil.parser.parse]

    The values [parser.parse] returns on a handful of strings, for running
    the planner on concrete inputs.  A string without a date is completed
    with the current date; 2024-01-01 stands for it here. *)

Definition sample_times : list (string * datetime) :=
  [ ("06:30 AM", mk_datetime 2024 1 1 6 30);
    ("07:00 AM", mk_datetime 2024 1 1 7 0);
    ("10:30 PM", mk_datetime 2024 1 1 22 30);
    ("2024-01-01 07:00 AM", mk_datetime 2024 1 1 7 0);
    ("2024-01-02 07:00 AM", mk_datetime 2024 1 2 7 0);
    ("2024-01-05 07:00 AM", mk_datetime 2024 1 5 7 0) ].

Fixpoint lookup_time (s : string) (l : list (string * datetime)) : option datetime :=
  match l with
  | [] => None
  | (k, v) :: rest => if String.eqb s k then Some v else lookup_time s rest
  end.

(** Any other string is rejected with a [ParserError] carrying the string. *)
Definition sample_parse (s : string) : string + datetime :=
  match lookup_time s sample_times with
  | Some t => inr t
  | None => inl s
  end.

(** * [app.py]

    Strings are sequences of bytes (UTF-8); [lower] changes the ASCII
    capital letters only, which is what [str.lower] does to the ASCII
    needles searched for below. *)

(** ** [str.lower] and [needle in s] *)

Definition lower_char (c : ascii) : ascii :=
  let n := nat_of_ascii c in
  if (65 <=? n)%nat && (n <=? 90)%nat then ascii_of_nat (n + 32) else c.

Fixpoint lower (s : string) : string :=
  match s with
  | EmptyString => EmptyString
  | String c rest => String (lower_char c) (lower rest)
  end.

Fixpoint starts_with (p s : string) : bool :=
  match p, s with
  | EmptyString, _ => true
  | String _ _, EmptyString => false
  | String a p', String b s' => Ascii.eqb a b && starts_with p' s'
  end.

(** [needle in s], for strings. *)
Fixpoint contains (needle s : string) : bool :=
  starts_with needle s ||
  match s with
  | EmptyString => false
  | String _ rest => contains needle rest
  end.

(** [x in l], for a list of strings. *)
Definition mem (x : string) (l : list string) : bool := existsb (String.eqb x) l.

(** ** [choose_model] *)

Definition preferred : list string :=
  [ "llama-3.3-70b-specdec";
    "llama-3.2-70b-text";
    "llama-3.2-11b-text-preview";
    "llama3-70b-8192";
    "llama3-8b-8192";
    "llama-3.1-8b-instant";
    "mixtral-8x7b" ].

(** Each [for ... if ...: return m] loop is a [find]. *)
Definition choose_model (available : list string) : option string :=
  match available with
  | [] => None
  | first :: _ =>
      match find (fun m => mem m available) preferred with
      | Some m => Some m
      | None =>
          match find (fun m => contains "llama" (lower m)) available with
          | Some m => Some m
          | None =>
              match find (fun m => contains "mixtral" (lower m)) available with
              | Some m => Some m
              | None => Some first
              end
          end
      end
  end.

(** ** [list_models] and [ai_reply] *)

(** What the body of the [try] (lines 74-84) does on one iteration; [msg]
    is [str(e)].
    - [Completed]: [create] returns a response whose first choice has the
      given content.
    - [ReadGroqError], [BadResponse]: [create] returns a response, the model
      is stored in the session (line 83), and reading the content (line 84)
      raises a [GroqError], or another [Exception].
    - [GroqError], [OtherException]: [create] itself raises a [GroqError],
      or another [Exception]. *)
Inductive api_result : Type :=
| Completed (content : option string)
| BadResponse (msg : string)
| ReadGroqError (msg : string)
| GroqError (msg : string)
| OtherException (msg : string).

(** The value returned by [ai_reply], the entry ["_groq_model"] of the
    session state afterwards, and the models passed to the API, in order. *)
Record ai_outcome : Type :=
  mkOutcome { reply : string; session : option string; calls : list string }.

Definition AI_DISABLED : string := "(AI disabled: no GROQ_API_KEY found)".
Definition AI_UNAVAILABLE : string := "(AI unavailable: no accessible models for this key)".

Definition ai_error (msg : string) : string := ("(AI error: " ++ msg ++ ")")%string.
Definition all_failed (model : string) : string :=
  ("(AI error: all candidate models failed; last tried: " ++ model ++ ")")%string.

(** Line 88: the error is about a model that is gone. *)
Definition model_gone (msg : string) : bool :=
  contains "model" (lower msg) &&
  (contains "decommission" (lower msg) || contains "not found" (lower msg)).

(** [a or b] on values that are [None] or a string. *)
Definition or_else (a b : option string) : option string :=
  match a with
  | Some (String _ _) => a
  | _ => b
  end.

Section AiReply.

(** Whether a client exists (an API key was found). *)
Variable has_client : bool.
(** The identifiers [client.models.list()] yields, [None] when it raises. *)
Variable fetch : option (list string).
(** The API: the outcome of the call number [n] (from 0) of this
    invocation, for the model requested. *)
Variable create : nat -> string -> api_result.
(** [str.strip]. *)
Variable strip : string -> string.

(** Lines 17-25.  [@st.cache_data] keeps the first result: every call
    returns this value. *)
Definition list_models : list string :=
  if has_client then
    match fetch with
    | Some ids => ids
    | None => []
    end
  else [].

(** Lines 70-102: the [while True] loop, [fuel] bounding its iterations. *)
Fixpoint retry (fuel : nat) (available : list string) (model : string)
    (tried calls : list string) (stored : option string) : option ai_outcome :=
  match fuel with
  | O => None
  | S fuel' =>
      let tried := model :: tried in
      let calls' := calls ++ [model] in
      (* lines 85-100: [except GroqError as e], the session entry being
         [stored'] when the exception is caught *)
      let except_groq (msg : string) (stored' : option string) :=
        if model_gone msg then
          let candidates := filter (fun m => negb (mem m tried)) available in
          let candidates :=
            match candidates with
            | [] => filter (fun m => negb (mem m tried)) list_models
            | _ :: _ => candidates
            end in
          match candidates with
          | [] => Some (mkOutcome (all_failed model) stored' calls')
          | _ :: _ =>
              match choose_model candidates with
              | Some m => retry fuel' available m tried calls' stored'
              | None => None
              end
          end
        else Some (mkOutcome (ai_error msg) stored' calls') in
      match create (List.length calls) model with
      | Completed content =>
          Some (mkOutcome (strip (match content with Some s => s | None => "" end))
                  (Some model) calls')
      | BadResponse msg => Some (mkOutcome (ai_error msg) (Some model) calls')
      | ReadGroqError msg => except_groq msg (Some model)
      | GroqError msg => except_groq msg stored
      | OtherException msg => Some (mkOutcome (ai_error msg) stored calls')
      end
  end.

(** Lines 59-102; [stored] is [st.session_state.get("_groq_model")]. *)
Definition ai_reply (fuel : nat) (stored : option string) : option ai_outcome :=
  if negb has_client then Some (mkOutcome AI_DISABLED stored [])
  else
    let available := list_models in
    match or_else stored (choose_model available) with
    | Some (String c rest) => retry fuel available (String c rest) [] [] stored
    | _ => Some (mkOutcome AI_UNAVAILABLE stored [])
    end.

End AiReply.

(** ** The tips of the page (lines 145-153) *)

(** The rows that get the fixed tip instead of a call to [ai_reply]. *)
Definition fixed_tip (r : row) : bool :=
  contains "Break" (Task_ r) || contains "Buffer" (Task_ r).

(** The rows for which [ai_reply] is called. *)
Definition ai_tip_rows (table : list row) : list row :=
  filter (fun r => negb (fixed_tip r)) table.

(** * Vocabulary of the properties *)

(** ** The day window *)

(** The end of the window, for a wake time [s] and a sleep time [e]. *)
Definition window_end (s e : datetime) : datetime :=
  if e <=? s then e + one_day else e.

(** ** Tilings

    [tiles a bs c]: the blocks [bs] are non-empty intervals laid end to end
    from [a] to [c]. *)

Inductive tiles : Z -> list Block.t -> Z -> Prop :=
| tiles_nil (a : Z) : tiles a [] a
| tiles_cons (b : Block.t) (bs : list Block.t) (c : Z) :
    Block.start b < Block.end_ b ->
    tiles (Block.end_ b) bs c ->
    tiles (Block.start b) (b :: bs) c.

(** The invariant of the loop: the plan tiles [start, cur], and a cursor
    that has moved has not moved past the end of the window. *)
Definition loop_inv (start end_ : Z) (st : state) : Prop :=
  tiles start (plan st) (cur st) /\ (plan st <> [] -> cur st <= end_).

(** ** The processing order *)

(** [precedes a b]: [a] may come before [b], that is, the key of [b] is not
    smaller than the key of [a]. *)
Definition precedes (a b : Task.t) : Prop :=
  Task.priority a > Task.priority b \/
  (Task.priority a = Task.priority b /\ Task.duration a >= Task.duration b).

Definition same_rank (p d : Z) (t : Task.t) : bool :=
  (Task.priority t =? p) && (Task.duration t =? d).

(** ** Runs that stay within the range of [datetime] *)

(** [m] minutes can be added to any timestamp up to [limit]. *)
Definition has_room (limit m : Z) : Prop :=
  0 <= m /\ limit + m * US_PER_MINUTE < DATETIME_END.

Definition in_bounds (limit : Z) (st : state) : Prop := 0 <= cur st <= limit.

(** ** Where the blocks of a plan come from *)

Definition is_break (break_len : Z) (b : Block.t) : Prop :=
  Block.name b = SHORT_BREAK /\
  Block.end_ b = Block.start b + break_len * US_PER_MINUTE.

Definition is_task_block (t : Task.t) (b : Block.t) : Prop :=
  Block.name b = Task.name t /\
  Block.end_ b = Block.start b + Task.duration t * US_PER_MINUTE.

(** [accounts break_len tasks blocks]: going through [tasks] in order, each
    task contributes at most one break followed by at most one block of its
    own, and [blocks] is what all of them contribute. *)
Inductive accounts (break_len : Z) : list Task.t -> list Block.t -> Prop :=
| accounts_nil : accounts break_len [] []
| accounts_cons (t : Task.t) (rest : list Task.t) (br tk bs : list Block.t) :
    br = [] \/ (exists b, br = [b] /\ is_break break_len b) ->
    tk = [] \/ (exists b, tk = [b] /\ is_task_block t b) ->
    accounts break_len rest bs ->
    accounts break_len (t :: rest) (br ++ tk ++ bs).

(** ** Clock readings *)

(** The value of a decimal digit character. *)
Definition digit_value (c : ascii) : option Z :=
  let n := Z.of_nat (nat_of_ascii c) in
  if (48 <=? n) && (n <=? 57) then Some (n - 48) else None.

(** [reads_clock12 s h m pm]: [s] is "hh:mm AM" or "hh:mm PM", two decimal
    digits for the hour [h], two for the minute [m]. *)
Definition reads_clock12 (s : string) (h m : Z) (pm : bool) : Prop :=
  exists a b c d : ascii,
    s = String a (String b (String ":"%char (String c (String d
          (String " "%char (if pm then "PM" else "AM")))))) /\
    digit_value a = Some (h / 10) /\ digit_value b = Some (h mod 10) /\
    digit_value c = Some (m / 10) /\ digit_value d = Some (m mod 10).

(** ** Runs of [ai_reply] *)

(** The call number [n], for model [m], made the loop move on to another
    model: a [GroqError] about a model that is gone was raised, by [create]
    (the session entry [stored] stays) or while reading the response (the
    session entry is [m] already). *)
Definition abandoned (create : nat -> string -> api_result)
    (stored : option string) (n : nat) (m : string) (stored' : option string)
  : Prop :=
  exists msg,
    model_gone msg = true /\
    ((create n m = GroqError msg /\ stored' = stored) \/
     (create n m = ReadGroqError msg /\ stored' = Some m)).

(** The call number [n], for model [m], ended the loop with outcome [out]. *)
Definition concluded (create : nat -> string -> api_result) (strip : string -> string)
    (stored : option string) (n : nat) (m : string) (out : ai_outcome) : Prop :=
  match create n m with
  | Completed content =>
      reply out = strip (match content with Some s => s | None => "" end) /\
      session out = Some m
  | BadResponse msg => reply out = ai_error msg /\ session out = Some m
  | ReadGroqError msg =>
      reply out = (if model_gone msg then all_failed m else ai_error msg) /\
      session out = Some m
  | GroqError msg =>
      reply out = (if model_gone msg then all_failed m else ai_error msg) /\
      session out = stored
  | OtherException msg => reply out = ai_error msg /\ session out = stored
  end.

(** [models] are the models of the calls number [n], [n + 1], ..., the
    session entry being [stored] before them: all but the last were
    abandoned, the last concluded. *)
Fixpoint run_explained (create : nat -> string -> api_result)
    (strip : string -> string) (stored : option string)
    (n : nat) (models : list string) (out : ai_outcome) : Prop :=
  match models with
  | [] => False
  | m :: rest =>
      match rest with
      | [] => concluded create strip stored n m out
      | _ :: _ =>
          exists stored',
            abandoned create stored n m stored' /\
            run_explained create strip stored' (S n) rest out
      end
  end.

(** ** A sample API

    Every model in [gone] has been decommissioned; any other model answers
    with the given text.  On texts without surrounding white space
    [str.strip] changes nothing. *)
Definition sample_create (gone : list string) (answer : string)
    (n : nat) (model : string) : api_result :=
  if mem model gone
  then GroqError ("The model `" ++ model ++ "` has been decommissioned")%string
  else Completed (Some answer).

Definition sample_strip (s : string) : string := s.

(** The same, the error being raised while the response is read. *)
Definition sample_create_reading (gone : list string) (answer : string)
    (n : nat) (model : string) : api_result :=
  if mem model gone
  then ReadGroqError ("The model `" ++ model ++ "` has been decommissioned")%string
  else Completed (Some answer).

(** ** The walk of the design document

    Section 4.1, step 3, in the document's words: before the next task, if
    the focus counter has reached [break_every] and a break of [break_len]
    minutes fits before the window end, a break block from the cursor is
    emitted, the cursor advances and the focus counter is reset to 0; then,
    if the full task duration fits before the window end, a task block of
    exactly that duration is emitted at the cursor, the cursor advances by
    the duration and the duration is added to the focus counter, and
    otherwise the task is dropped.  Step 4 adds the buffer.  Timestamps are
    unbounded here. *)

Definition spec_break (end_ break_every break_len : Z) (st : state) : state :=
  if (focus st >=? break_every) && (cur st + break_len * US_PER_MINUTE <=? end_)
  then mkState (cur st + break_len * US_PER_MINUTE) 0
         (plan st ++ [Block.mk (cur st) (cur st + break_len * US_PER_MINUTE)
                        SHORT_BREAK])
  else st.

Definition spec_place (end_ : Z) (st : state) (t : Task.t) : state :=
  if cur st + Task.duration t * US_PER_MINUTE <=? end_
  then mkState (cur st + Task.duration t * US_PER_MINUTE)
         (focus st + Task.duration t)
         (plan st ++ [Block.mk (cur st)
                        (cur st + Task.duration t * US_PER_MINUTE)
                        (Task.name t)])
  else st.

(** The tasks of [ordered] are taken from the front. *)
Definition spec_walk (end_ break_every break_len : Z) (ordered : list Task.t)
    (st : state) : state :=
  fold_left (fun st t => spec_place end_ (spec_break end_ break_every break_len st) t)
    ordered st.

Definition spec_plan (start end_ break_every break_len : Z) (ordered : list Task.t)
  : list Block.t :=
  let st := spec_walk end_ break_every break_len ordered (mkState start 0 []) in
  if cur st <? end_ then plan st ++ [Block.mk (cur st) end_ FREE_TIME] else plan st.

(** ** Plans in which every task has its block *)

(** The minutes of work in a task list. *)
Definition total_minutes (tasks : list Task.t) : Z :=
  fold_right (fun t acc => Task.duration t + acc) 0 tasks.

(** As [accounts], with no task left out. *)
Inductive accounts_all (break_len : Z) : list Task.t -> list Block.t -> Prop :=
| accounts_all_nil : accounts_all break_len [] []
| accounts_all_cons (t : Task.t) (rest : list Task.t) (br : list Block.t)
    (b : Block.t) (bs : list Block.t) :
    br = [] \/ (exists b', br = [b'] /\ is_break break_len b') ->
    is_task_block t b ->
    accounts_all break_len rest bs ->
    accounts_all break_len (t :: rest) (br ++ b :: bs).

(** * Properties *)

(** ** Sample runs *)

Example ymd2ord_max : ymd2ord 9999 12 31 = MAXORDINAL.
Proof. reflexivity. Qed.

Example scenario_1 :
  plan_day sample_parse "06:30 AM" "10:30 PM" [Task.mk "Write report" 120 5] 60 5
  = inr [ Block.mk (mk_datetime 2024 1 1 6 30) (mk_datetime 2024 1 1 8 30) "Write report";
          Block.mk (mk_datetime 2024 1 1 8 30) (mk_datetime 2024 1 1 22 30) FREE_TIME ].
Proof. vm_compute. reflexivity. Qed.

Example scenario_1_table :
  option_map format_blocks
    (match plan_day sample_parse "06:30 AM" "10:30 PM" [Task.mk "Write report" 120 5] 60 5 with
     | inr b => Some b | inl _ => None end)
  = Some [ mkRow ("06:30 AM" ++ EN_DASH ++ "08:30 AM")%string "Write report";
           mkRow ("08:30 AM" ++ EN_DASH ++ "10:30 PM")%string FREE_TIME ].
Proof. vm_compute. reflexivity. Qed.

(** A task that does not fit is dropped and the buffer takes its place. *)
Example scenario_3 :
  plan_day sample_parse "06:30 AM" "10:30 PM"
    [Task.mk "Marathon" 1000 5; Task.mk "Email" 30 1] 60 5
  = inr [ Block.mk (mk_datetime 2024 1 1 6 30) (mk_datetime 2024 1 1 7 0) "Email";
          Block.mk (mk_datetime 2024 1 1 7 0) (mk_datetime 2024 1 1 22 30) FREE_TIME ].
Proof. vm_compute. reflexivity. Qed.

(** Two tasks of 40 minutes: the focus counter is at 40 when the second one
    is placed, so no break comes between them. *)
Example scenario_4 :
  plan_day sample_parse "06:30 AM" "10:30 PM"
    [Task.mk "Read" 40 3; Task.mk "Write" 40 3] 60 5
  = inr [ Block.mk (mk_datetime 2024 1 1 6 30) (mk_datetime 2024 1 1 7 10) "Read";
          Block.mk (mk_datetime 2024 1 1 7 10) (mk_datetime 2024 1 1 7 50) "Write";
          Block.mk (mk_datetime 2024 1 1 7 50) (mk_datetime 2024 1 1 22 30) FREE_TIME ].
Proof. vm_compute. reflexivity. Qed.

(** A break is taken before the task that follows an hour of work. *)
Example break_before_next_task :
  plan_day sample_parse "06:30 AM" "10:30 PM"
    [Task.mk "Email" 30 2; Task.mk "Write report" 60 5] 60 5
  = inr [ Block.mk (mk_datetime 2024 1 1 6 30) (mk_datetime 2024 1 1 7 30) "Write report";
          Block.mk (mk_datetime 2024 1 1 7 30) (mk_datetime 2024 1 1 7 35) SHORT_BREAK;
          Block.mk (mk_datetime 2024 1 1 7 35) (mk_datetime 2024 1 1 8 5) "Email";
          Block.mk (mk_datetime 2024 1 1 8 5) (mk_datetime 2024 1 1 22 30) FREE_TIME ].
Proof. vm_compute. reflexivity. Qed.

Example sorted_sample :
  sorted [Task.mk "a" 30 3; Task.mk "b" 60 3; Task.mk "c" 30 3; Task.mk "d" 10 5]
  = [Task.mk "d" 10 5; Task.mk "b" 60 3; Task.mk "a" 30 3; Task.mk "c" 30 3].
Proof. reflexivity. Qed.

Example midnight_and_noon :
  strftime_I_M_p (mk_datetime 2024 1 1 0 5) = "12:05 AM" /\
  strftime_I_M_p (mk_datetime 2024 1 1 12 0) = "12:00 PM" /\
  strftime_I_M_p (mk_datetime 2024 1 1 13 7) = "01:07 PM".
Proof. repeat split; vm_compute; reflexivity. Qed.

(** ** Arithmetic of the [datetime] fragment *)

Lemma representableb_iff (t : Z) : representableb t = true <-> representable t.
Proof.
  unfold representableb, representable.
  rewrite andb_true_iff, Z.leb_le, Z.ltb_lt. tauto.
Qed.

Lemma minutes_okb_iff (m : Z) : minutes_okb m = true <-> minutes_ok m.
Proof.
  unfold minutes_okb, minutes_ok.
  rewrite andb_true_iff, !Z.leb_le. tauto.
Qed.

Lemma timedelta_minutes_ok {E : Type} (m : Z) :
  minutes_ok m -> @timedelta_minutes E m = ret (m * US_PER_MINUTE).
Proof.
  intros H. unfold timedelta_minutes.
  apply minutes_okb_iff in H. now rewrite H.
Qed.

Lemma timedelta_minutes_inr {E : Type} (m : Z) (d : timedelta) :
  @timedelta_minutes E m = inr d -> minutes_ok m /\ d = m * US_PER_MINUTE.
Proof.
  unfold timedelta_minutes.
  destruct (minutes_okb m) eqn:H; [|discriminate].
  intros [= <-]. split; [now apply minutes_okb_iff | reflexivity].
Qed.

Lemma dt_add_ok {E : Type} (t : datetime) (d : timedelta) :
  representable (t + d) -> @dt_add E t d = ret (t + d).
Proof.
  intros H. unfold dt_add.
  apply representableb_iff in H. now rewrite H.
Qed.

Lemma dt_add_inr {E : Type} (t : datetime) (d : timedelta) (r : datetime) :
  @dt_add E t d = inr r -> representable (t + d) /\ r = t + d.
Proof.
  unfold dt_add.
  destruct (representableb (t + d)) eqn:H; [|discriminate].
  intros [= <-]. split; [now apply representableb_iff | reflexivity].
Qed.

(** A duration of [m] minutes that still ends before the year 10000 when
    started at [t >= 0] is a legal [timedelta]. *)
Lemma minutes_ok_of_room (t m : Z) :
  0 <= t -> 0 <= m -> t + m * US_PER_MINUTE < DATETIME_END -> minutes_ok m.
Proof.
  unfold minutes_ok, DATETIME_END, MAXORDINAL, US_PER_DAY, US_PER_MINUTE, MAX_DELTA_DAYS.
  intros Ht Hm H. split.
  - pose proof (Z.div_pos m 1440 Hm ltac:(lia)). lia.
  - apply Z.lt_le_incl. apply Z.div_lt_upper_bound; lia.
Qed.

Lemma bind_inr {E A B : Type} (m : exn E + A) (k : A -> exn E + B) (b : B) :
  bind m k = inr b -> exists a, m = inr a /\ k a = inr b.
Proof.
  destruct m as [x|a]; simpl; [discriminate|].
  intros H. now exists a.
Qed.

(** ** One iteration of the loop *)

Section Steps.

Variable parse_error : Type.
Variables (end_ break_every break_len : Z).

(** What [place_task] computes when the sum [cur + tlen] exists. *)
Lemma place_task_spec (st : state) (t : Task.t) :
  minutes_ok (Task.duration t) ->
  representable (cur st + Task.duration t * US_PER_MINUTE) ->
  @place_task parse_error end_ st t =
    ret (if cur st + Task.duration t * US_PER_MINUTE <=? end_
         then mkState (cur st + Task.duration t * US_PER_MINUTE)
                      (focus st + Task.duration t)
                      (plan st ++ [Block.mk (cur st)
                                     (cur st + Task.duration t * US_PER_MINUTE)
                                     (Task.name t)])
         else st).
Proof.
  intros Hm Hr. unfold place_task.
  rewrite (timedelta_minutes_ok _ Hm). cbn [bind ret].
  rewrite (dt_add_ok _ _ Hr). cbn [bind ret].
  destruct (_ <=? _); reflexivity.
Qed.

(** Conversely, [place_task] returns only when that sum exists. *)
Lemma place_task_inr (st st' : state) (t : Task.t) :
  @place_task parse_error end_ st t = inr st' ->
  minutes_ok (Task.duration t) /\
  representable (cur st + Task.duration t * US_PER_MINUTE).
Proof.
  unfold place_task. intros H.
  apply bind_inr in H as (d & Hd & H).
  apply timedelta_minutes_inr in Hd as [Hm ->].
  apply bind_inr in H as (c & Hc & _).
  apply dt_add_inr in Hc as [Hr _]. now split.
Qed.

Lemma take_break_spec (st : state) :
  (break_every <= focus st ->
   minutes_ok break_len /\ representable (cur st + break_len * US_PER_MINUTE)) ->
  @take_break parse_error end_ break_every break_len st =
    ret (if (focus st >=? break_every) && (cur st + break_len * US_PER_MINUTE <=? end_)
         then mkState (cur st + break_len * US_PER_MINUTE) 0
                      (plan st ++ [Block.mk (cur st)
                                     (cur st + break_len * US_PER_MINUTE)
                                     SHORT_BREAK])
         else st).
Proof.
  intros H. unfold take_break, break_due.
  destruct (focus st >=? break_every) eqn:Hf; cbn [andb bind ret]; [|reflexivity].
  rewrite Z.geb_le in Hf. destruct (H Hf) as [Hm Hr].
  rewrite (timedelta_minutes_ok _ Hm). cbn [bind ret].
  rewrite (dt_add_ok _ _ Hr). cbn [bind ret].
  destruct (_ <=? _); reflexivity.
Qed.

Lemma take_break_inr (st st' : state) :
  @take_break parse_error end_ break_every break_len st = inr st' ->
  break_every <= focus st ->
  minutes_ok break_len /\ representable (cur st + break_len * US_PER_MINUTE).
Proof.
  unfold take_break, break_due. intros H Hf.
  apply Z.geb_le in Hf. rewrite Hf in H.
  apply bind_inr in H as (due & H & _).
  apply bind_inr in H as (d & Hd & H).
  apply timedelta_minutes_inr in Hd as [Hm ->].
  apply bind_inr in H as (c & Hc & _).
  apply dt_add_inr in Hc as [Hr _]. now split.
Qed.

End Steps.

Lemma place_task_inv {E : Type} (end_ : Z) (st st' : state) (t : Task.t) :
  @place_task E end_ st t = inr st' ->
  st' = (if cur st + Task.duration t * US_PER_MINUTE <=? end_
         then mkState (cur st + Task.duration t * US_PER_MINUTE)
                      (focus st + Task.duration t)
                      (plan st ++ [Block.mk (cur st)
                                     (cur st + Task.duration t * US_PER_MINUTE)
                                     (Task.name t)])
         else st).
Proof.
  intros H. destruct (place_task_inr _ _ _ _ _ H) as [Hm Hr].
  rewrite (place_task_spec _ _ _ _ Hm Hr) in H. now injection H as <-.
Qed.

Lemma take_break_inv {E : Type} (end_ break_every break_len : Z) (st st' : state) :
  @take_break E end_ break_every break_len st = inr st' ->
  st' = (if (focus st >=? break_every) && (cur st + break_len * US_PER_MINUTE <=? end_)
         then mkState (cur st + break_len * US_PER_MINUTE) 0
                      (plan st ++ [Block.mk (cur st)
                                     (cur st + break_len * US_PER_MINUTE)
                                     SHORT_BREAK])
         else st).
Proof.
  intros H. pose proof (take_break_inr _ _ _ _ _ _ H) as Hb.
  rewrite (take_break_spec _ _ _ _ _ Hb) in H. now injection H as <-.
Qed.

(** ** Tilings and the loop invariant *)

Lemma tiles_app (a c d : Z) (bs bs' : list Block.t) :
  tiles a bs c -> tiles c bs' d -> tiles a (bs ++ bs') d.
Proof.
  induction 1 as [a|b bs c Hb Hbs IH]; intros H'; simpl; [assumption|].
  constructor; auto.
Qed.

Lemma tiles_one (a c : Z) (s : string) : a < c -> tiles a [Block.mk a c s] c.
Proof.
  intros H. change a with (Block.start (Block.mk a c s)) at 1.
  constructor; [exact H | constructor].
Qed.

Lemma tiles_snoc (a c d : Z) (bs : list Block.t) (s : string) :
  tiles a bs c -> c < d -> tiles a (bs ++ [Block.mk c d s]) d.
Proof.
  intros H Hcd. eapply tiles_app; [exact H | now apply tiles_one].
Qed.

Lemma tiles_le (a c : Z) (bs : list Block.t) : tiles a bs c -> a <= c.
Proof. induction 1; lia. Qed.

Lemma tiles_positive (a c : Z) (bs : list Block.t) :
  tiles a bs c -> Forall (fun b => Block.start b < Block.end_ b) bs.
Proof. induction 1; constructor; assumption. Qed.

Lemma tiles_first (a c : Z) (bs : list Block.t) (b : Block.t) :
  tiles a bs c -> hd_error bs = Some b -> Block.start b = a.
Proof. destruct 1; simpl; [discriminate|]. now intros [= ->]. Qed.

Lemma tiles_last (a c : Z) (bs : list Block.t) (d : Block.t) :
  tiles a bs c -> bs <> [] -> Block.end_ (last bs d) = c.
Proof.
  induction 1 as [a|b bs c Hb Hbs IH]; intros Hne; [congruence|].
  destruct bs as [|b' bs'].
  - inversion Hbs; subst. reflexivity.
  - change (last (b :: b' :: bs') d) with (last (b' :: bs') d).
    apply IH. discriminate.
Qed.

Lemma tiles_adjacent (a c : Z) (bs : list Block.t) (i : nat) (b b' : Block.t) :
  tiles a bs c ->
  nth_error bs i = Some b -> nth_error bs (S i) = Some b' ->
  Block.end_ b = Block.start b'.
Proof.
  intros H. revert i. induction H as [a|b0 bs c Hb Hbs IH]; intros i Hi Hi'.
  - destruct i; discriminate.
  - destruct i as [|i]; simpl in Hi, Hi'.
    + injection Hi as <-. destruct bs as [|b1 bs1]; [discriminate|].
      simpl in Hi'. injection Hi' as <-.
      symmetry. eapply tiles_first; [exact Hbs | reflexivity].
    + eapply IH; eassumption.
Qed.

Lemma tiles_within (a c : Z) (bs : list Block.t) (i : nat) (b : Block.t) :
  tiles a bs c -> nth_error bs i = Some b ->
  a <= Block.start b /\ Block.end_ b <= c.
Proof.
  intros H. revert i. induction H as [a|b0 bs c Hb Hbs IH]; intros i Hi.
  - destruct i; discriminate.
  - destruct i as [|i]; simpl in Hi.
    + injection Hi as <-. apply tiles_le in Hbs. lia.
    + apply IH in Hi. lia.
Qed.

Lemma tiles_ordered (a c : Z) (bs : list Block.t) (i j : nat) (b b' : Block.t) :
  tiles a bs c -> (i < j)%nat ->
  nth_error bs i = Some b -> nth_error bs j = Some b' ->
  Block.end_ b <= Block.start b'.
Proof.
  intros H. revert i j. induction H as [a|b0 bs c Hb Hbs IH]; intros i j Hij Hi Hj.
  - destruct i; discriminate.
  - destruct j as [|j]; [lia|]. simpl in Hj.
    destruct i as [|i]; simpl in Hi.
    + injection Hi as <-. eapply tiles_within in Hj; [|exact Hbs]. lia.
    + eapply (IH i j); [lia | assumption | assumption].
Qed.

Lemma loop_inv_take_break {E : Type} (start end_ break_every break_len : Z)
    (st st' : state) :
  0 < break_len ->
  @take_break E end_ break_every break_len st = inr st' ->
  loop_inv start end_ st -> loop_inv start end_ st'.
Proof.
  intros Hbl H [Ht Hc]. apply take_break_inv in H. subst st'.
  destruct (_ && _) eqn:Hd; [|now split].
  apply andb_true_iff in Hd as [_ Hfit]. apply Z.leb_le in Hfit.
  unfold US_PER_MINUTE in *.
  split; cbn [plan cur]; [apply tiles_snoc; [assumption | lia] | intros _; assumption].
Qed.

Lemma loop_inv_place_task {E : Type} (start end_ : Z) (st st' : state) (t : Task.t) :
  0 < Task.duration t ->
  @place_task E end_ st t = inr st' ->
  loop_inv start end_ st -> loop_inv start end_ st'.
Proof.
  intros Hd H [Ht Hc]. apply place_task_inv in H. subst st'.
  destruct (_ <=? _) eqn:Hfit; [|now split].
  apply Z.leb_le in Hfit. unfold US_PER_MINUTE in *.
  split; cbn [plan cur]; [apply tiles_snoc; [assumption | lia] | intros _; assumption].
Qed.

Lemma loop_inv_run_tasks {E : Type} (start end_ break_every break_len : Z)
    (tasks : list Task.t) :
  0 < break_len ->
  Forall (fun t => 0 < Task.duration t) tasks ->
  forall st st' : state,
  @run_tasks E end_ break_every break_len tasks st = inr st' ->
  loop_inv start end_ st -> loop_inv start end_ st'.
Proof.
  intros Hbl Hpos. induction Hpos as [|t rest Ht Hrest IH]; intros st st' H Hinv.
  - injection H as <-. assumption.
  - cbn [run_tasks] in H.
    apply bind_inr in H as (st1 & H1 & H).
    apply bind_inr in H as (st2 & H2 & H).
    eapply IH; [exact H|].
    eapply loop_inv_place_task; [exact Ht | exact H2 |].
    eapply loop_inv_take_break; [exact Hbl | exact H1 | exact Hinv].
Qed.

(** ** The processing order *)

Lemma tuple_lt_true (a b : Task.t) :
  tuple_lt (sort_key a) (sort_key b) = true <->
  Task.priority a > Task.priority b \/
  (Task.priority a = Task.priority b /\ Task.duration a > Task.duration b).
Proof.
  unfold tuple_lt, sort_key; cbn [fst snd].
  rewrite orb_true_iff, andb_true_iff, !Z.ltb_lt, Z.eqb_eq. lia.
Qed.

Lemma tuple_lt_false (a b : Task.t) :
  tuple_lt (sort_key a) (sort_key b) = false <-> precedes b a.
Proof.
  unfold precedes. rewrite <- not_true_iff_false, tuple_lt_true. lia.
Qed.

Lemma precedes_trans (a b c : Task.t) : precedes a b -> precedes b c -> precedes a c.
Proof. unfold precedes. lia. Qed.

Lemma insert_task_perm (x : Task.t) (l : list Task.t) :
  Permutation (x :: l) (insert_task x l).
Proof.
  induction l as [|y ys IH]; cbn [insert_task]; [reflexivity|].
  destruct (tuple_lt _ _); [|reflexivity].
  rewrite perm_swap. now constructor.
Qed.

Lemma sorted_perm (l : list Task.t) : Permutation l (sorted l).
Proof.
  induction l as [|x l IH]; cbn [sorted fold_right]; [constructor|].
  rewrite <- insert_task_perm. now constructor.
Qed.

Lemma insert_task_sorted (x : Task.t) (l : list Task.t) :
  StronglySorted precedes l -> StronglySorted precedes (insert_task x l).
Proof.
  induction 1 as [|y ys Hys IH Hy]; cbn [insert_task].
  - repeat constructor.
  - destruct (tuple_lt (sort_key y) (sort_key x)) eqn:Hlt.
    + constructor; [assumption|].
      eapply Permutation_Forall; [apply insert_task_perm|].
      constructor; [|assumption].
      apply tuple_lt_true in Hlt. unfold precedes. lia.
    + apply tuple_lt_false in Hlt.
      constructor; [now constructor|].
      constructor; [assumption|].
      eapply Forall_impl; [|exact Hy].
      intros z Hz. eapply precedes_trans; eassumption.
Qed.

Lemma sorted_sorted (l : list Task.t) : StronglySorted precedes (sorted l).
Proof.
  induction l as [|x l IH]; cbn [sorted fold_right]; [constructor|].
  now apply insert_task_sorted.
Qed.

Lemma insert_task_stable (p d : Z) (x : Task.t) (l : list Task.t) :
  filter (same_rank p d) (insert_task x l) = filter (same_rank p d) (x :: l).
Proof.
  induction l as [|y ys IH]; cbn [insert_task]; [reflexivity|].
  destruct (tuple_lt (sort_key y) (sort_key x)) eqn:Hlt; [|reflexivity].
  apply tuple_lt_true in Hlt.
  cbn [filter] in *. rewrite IH.
  destruct (same_rank p d y) eqn:Hy, (same_rank p d x) eqn:Hx; try reflexivity.
  unfold same_rank in Hx, Hy.
  rewrite andb_true_iff, !Z.eqb_eq in Hx, Hy. lia.
Qed.

Lemma sorted_stable (p d : Z) (l : list Task.t) :
  filter (same_rank p d) (sorted l) = filter (same_rank p d) l.
Proof.
  induction l as [|x l IH]; cbn [sorted fold_right]; [reflexivity|].
  rewrite insert_task_stable. cbn [filter]. fold (sorted l). now rewrite IH.
Qed.

Lemma sorted_Forall (P : Task.t -> Prop) (l : list Task.t) :
  Forall P l -> Forall P (sorted l).
Proof. intros H. eapply Permutation_Forall; [apply sorted_perm | exact H]. Qed.

(** ** The day window *)

Lemma day_window_spec {E : Type} (parse : string -> E + datetime)
    (wake_time sleep_time : string) (s e : datetime) :
  parse wake_time = inr s -> parse sleep_time = inr e ->
  (e <= s -> representable (e + one_day)) ->
  day_window parse wake_time sleep_time = inr (s, window_end s e).
Proof.
  intros Hs He Hr. unfold day_window, parse_time, window_end.
  rewrite Hs, He. cbn [bind ret].
  destruct (e <=? s) eqn:Hle; [|reflexivity].
  apply Z.leb_le in Hle. now rewrite (dt_add_ok _ _ (Hr Hle)).
Qed.

Lemma day_window_inr {E : Type} (parse : string -> E + datetime)
    (wake_time sleep_time : string) (w : datetime * datetime) :
  day_window parse wake_time sleep_time = inr w ->
  exists s e, parse wake_time = inr s /\ parse sleep_time = inr e /\
              (e <= s -> representable (e + one_day)) /\
              w = (s, window_end s e).
Proof.
  unfold day_window, parse_time, window_end. intros H.
  destruct (parse wake_time) as [x|s]; [discriminate|].
  destruct (parse sleep_time) as [x|e]; [discriminate|].
  cbn [bind ret] in H. exists s, e.
  split; [reflexivity|]. split; [reflexivity|]. split.
  - intros Hle. apply Z.leb_le in Hle. rewrite Hle in H.
    apply bind_inr in H as (r & Hr & _). now apply dt_add_inr in Hr.
  - destruct (e <=? s); [|now injection H as <-].
    apply bind_inr in H as (r & Hr & H). apply dt_add_inr in Hr as [_ ->].
    now injection H as <-.
Qed.

Lemma window_end_after (s e : datetime) : s - one_day < e -> s < window_end s e.
Proof.
  unfold window_end, one_day, US_PER_DAY. intros H.
  destruct (e <=? s) eqn:Hle; [lia|]. apply Z.leb_gt in Hle. lia.
Qed.

(** ** Runs that stay within the range of [datetime] *)

Section Returns.

Variable parse_error : Type.
Variables (end_ limit break_every break_len : Z).
Hypothesis end_limit : end_ <= limit.
Hypothesis break_room : has_room limit break_len.

Lemma room_minutes_ok (t m : Z) : 0 <= t <= limit -> has_room limit m -> minutes_ok m.
Proof.
  intros Ht [Hm Hr]. apply (minutes_ok_of_room t); unfold US_PER_MINUTE in *; lia.
Qed.

Lemma room_representable (t m : Z) :
  0 <= t <= limit -> has_room limit m -> representable (t + m * US_PER_MINUTE).
Proof.
  intros Ht [Hm Hr]. unfold representable, US_PER_MINUTE in *. lia.
Qed.

Lemma take_break_returns (st : state) :
  in_bounds limit st ->
  exists st', @take_break parse_error end_ break_every break_len st = inr st' /\
              in_bounds limit st'.
Proof.
  intros Hb. rewrite take_break_spec.
  - eexists; split; [reflexivity|].
    destruct (_ && _) eqn:Hd; [|assumption].
    apply andb_true_iff in Hd as [_ Hfit]. apply Z.leb_le in Hfit.
    destruct break_room as [Hm _].
    unfold in_bounds, US_PER_MINUTE in *; cbn [cur]. lia.
  - intros _. split; [eapply room_minutes_ok | apply room_representable]; eassumption.
Qed.

Lemma place_task_returns (st : state) (t : Task.t) :
  in_bounds limit st -> has_room limit (Task.duration t) ->
  exists st', @place_task parse_error end_ st t = inr st' /\ in_bounds limit st'.
Proof.
  intros Hb Ht. rewrite place_task_spec.
  - eexists; split; [reflexivity|].
    destruct (_ <=? _) eqn:Hfit; [|assumption].
    apply Z.leb_le in Hfit. destruct Ht as [Hm _].
    unfold in_bounds, US_PER_MINUTE in *; cbn [cur]. lia.
  - eapply room_minutes_ok; eassumption.
  - now apply room_representable.
Qed.

Lemma run_tasks_returns (tasks : list Task.t) :
  Forall (fun t => has_room limit (Task.duration t)) tasks ->
  forall st, in_bounds limit st ->
  exists st', @run_tasks parse_error end_ break_every break_len tasks st = inr st'.
Proof.
  induction 1 as [|t rest Ht Hrest IH]; intros st Hb; cbn [run_tasks].
  - now exists st.
  - destruct (take_break_returns st Hb) as (st1 & -> & Hb1). cbn [bind].
    destruct (place_task_returns st1 t Hb1 Ht) as (st2 & -> & Hb2). cbn [bind].
    now apply IH.
Qed.

End Returns.

Lemma plan_day_returns {E : Type} (parse : string -> E + datetime)
    (wake_time sleep_time : string) (tasks : list Task.t)
    (break_every break_len : Z) (s e : datetime) :
  parse wake_time = inr s -> parse sleep_time = inr e ->
  0 <= s -> representable (window_end s e) ->
  has_room (Z.max s (window_end s e)) break_len ->
  Forall (fun t => has_room (Z.max s (window_end s e)) (Task.duration t)) tasks ->
  exists blocks,
    plan_day parse wake_time sleep_time tasks break_every break_len = inr blocks.
Proof.
  intros Hs He Hs0 Hr Hbl Htasks. unfold plan_day.
  rewrite (day_window_spec parse _ _ s e Hs He).
  - cbn [bind fst snd]. unfold schedule.
    destruct (run_tasks_returns E (window_end s e) (Z.max s (window_end s e))
                break_every break_len ltac:(lia) Hbl (sorted tasks)
                (sorted_Forall _ _ Htasks) (mkState s 0 []))
      as (st & ->).
    + unfold in_bounds; cbn [cur]. lia.
    + cbn [bind ret]. eexists; reflexivity.
  - intros Hle. unfold window_end in Hr. apply Z.leb_le in Hle. now rewrite Hle in Hr.
Qed.

(** ** Where the blocks of a plan come from *)

Lemma run_tasks_accounts {E : Type} (end_ break_every break_len : Z)
    (tasks : list Task.t) :
  forall st st' : state,
  @run_tasks E end_ break_every break_len tasks st = inr st' ->
  exists bs, plan st' = plan st ++ bs /\ accounts break_len tasks bs.
Proof.
  induction tasks as [|t rest IH]; intros st st' H; cbn [run_tasks] in H.
  - injection H as <-. exists []. split; [now rewrite app_nil_r | constructor].
  - apply bind_inr in H as (st1 & H1 & H).
    apply bind_inr in H as (st2 & H2 & H).
    apply take_break_inv in H1. apply place_task_inv in H2.
    apply IH in H as (bs & Hbs & Hacc).
    set (due := (focus st >=? break_every) &&
                (cur st + break_len * US_PER_MINUTE <=? end_)) in H1.
    set (fits := cur st1 + Task.duration t * US_PER_MINUTE <=? end_) in H2.
    set (br := if due
               then [Block.mk (cur st) (cur st + break_len * US_PER_MINUTE) SHORT_BREAK]
               else []).
    set (tk := if fits
               then [Block.mk (cur st1) (cur st1 + Task.duration t * US_PER_MINUTE)
                       (Task.name t)]
               else []).
    assert (Hp1 : plan st1 = plan st ++ br).
    { rewrite H1. subst br. destruct due; cbn [plan]; now rewrite ?app_nil_r. }
    assert (Hp2 : plan st2 = plan st1 ++ tk).
    { rewrite H2. subst tk. destruct fits; cbn [plan]; now rewrite ?app_nil_r. }
    exists (br ++ tk ++ bs). split.
    + rewrite Hbs, Hp2, Hp1, <- !app_assoc. reflexivity.
    + constructor; [| |assumption].
      * subst br. destruct due; [right|now left].
        eexists; split; [reflexivity | split; reflexivity].
      * subst tk. destruct fits; [right|now left].
        eexists; split; [reflexivity | split; reflexivity].
Qed.

(** ** The plan as a tiling of the window *)

Lemma schedule_tiling {E : Type} (s e break_every break_len : Z)
    (ordered : list Task.t) (blocks : list Block.t) :
  Forall (fun t => 0 < Task.duration t) ordered ->
  0 < break_len ->
  @schedule E s e ordered break_every break_len = inr blocks ->
  blocks = [] \/ tiles s blocks e.
Proof.
  intros Hpos Hbl H. unfold schedule in H.
  apply bind_inr in H as (st & Hrun & H). injection H as <-.
  assert (Hinv : loop_inv s e st).
  { eapply loop_inv_run_tasks; [exact Hbl | exact Hpos | exact Hrun |].
    split; cbn [plan cur]; [constructor | congruence]. }
  destruct Hinv as [Ht Hc]. unfold close_plan.
  destruct (cur st <? e) eqn:Hlt.
  - right. apply Z.ltb_lt in Hlt. now apply tiles_snoc.
  - apply Z.ltb_ge in Hlt. destruct (plan st) as [|b bs] eqn:Hp; [now left|].
    right. assert (cur st = e) as <- by (assert (cur st <= e) by (apply Hc; discriminate); lia).
    assumption.
Qed.

(** C1.  When both time strings parse, the task durations are positive and
    the break length is positive, the blocks returned by [plan_day] tile the
    window: every block is non-empty, the first one starts at the window
    start, each block ends where the next one starts, the last one ends at
    the window end, and a block never starts before an earlier one has ended.
    (Nothing is required of [break_every].) *)
Theorem plan_day_tiles_window {E : Type} (parse : string -> E + datetime)
    (wake_time sleep_time : string) (tasks : list Task.t)
    (break_every break_len : Z) (s e : datetime) (blocks : list Block.t) :
  day_window parse wake_time sleep_time = inr (s, e) ->
  Forall (fun t => 0 < Task.duration t) tasks ->
  0 < break_len ->
  plan_day parse wake_time sleep_time tasks break_every break_len = inr blocks ->
  Forall (fun b => Block.start b < Block.end_ b) blocks /\
  (forall b, hd_error blocks = Some b -> Block.start b = s) /\
  (forall i b b', nth_error blocks i = Some b -> nth_error blocks (S i) = Some b' ->
                  Block.end_ b = Block.start b') /\
  (forall d, blocks <> [] -> Block.end_ (last blocks d) = e) /\
  (forall i j b b', (i < j)%nat ->
                    nth_error blocks i = Some b -> nth_error blocks j = Some b' ->
                    Block.end_ b <= Block.start b').
Proof.
  intros Hw Hpos Hbl H. unfold plan_day in H. rewrite Hw in H. cbn [bind fst snd] in H.
  apply schedule_tiling in H; [|now apply sorted_Forall|assumption].
  destruct H as [->|Ht].
  - split; [constructor|]. split; [discriminate|].
    split; [intros [|i]; discriminate|]. split; [congruence|].
    intros [|i]; discriminate.
  - split; [eapply tiles_positive; eassumption|].
    split; [intros b; eapply tiles_first; eassumption|].
    split; [intros i b b'; eapply tiles_adjacent; eassumption|].
    split; [intros d; eapply tiles_last; eassumption|].
    intros i j b b'; eapply tiles_ordered; eassumption.
Qed.

Lemma plan_day_tiles_window_witness :
  exists blocks,
    plan_day sample_parse "06:30 AM" "10:30 PM"
      [Task.mk "Write report" 120 5; Task.mk "Email" 30 5; Task.mk "Gym" 900 3] 60 5
    = inr blocks /\
    Forall (fun b => Block.start b < Block.end_ b) blocks /\
    forall d, blocks <> [] -> Block.end_ (last blocks d) = mk_datetime 2024 1 1 22 30.
Proof.
  eexists. split; [vm_compute; reflexivity|].
  refine (let H := plan_day_tiles_window sample_parse "06:30 AM" "10:30 PM"
                     [Task.mk "Write report" 120 5; Task.mk "Email" 30 5;
                      Task.mk "Gym" 900 3] 60 5
                     (mk_datetime 2024 1 1 6 30) (mk_datetime 2024 1 1 22 30) _
                     _ _ _ _ in _).
  - split; [exact (proj1 H) | exact (proj1 (proj2 (proj2 (proj2 H))))].
  Unshelve.
  + vm_compute; reflexivity.
  + repeat constructor.
  + reflexivity.
  + vm_compute; reflexivity.
Defined.

(** ** The loop against the walk of the design document *)

Lemma run_tasks_refines {E : Type} (end_ break_every break_len : Z)
    (tasks : list Task.t) :
  forall st st' : state,
  @run_tasks E end_ break_every break_len tasks st = inr st' ->
  st' = spec_walk end_ break_every break_len tasks st.
Proof.
  induction tasks as [|t rest IH]; intros st st' H; cbn [run_tasks] in H.
  - now injection H as <-.
  - apply bind_inr in H as (st1 & H1 & H).
    apply bind_inr in H as (st2 & H2 & H).
    apply take_break_inv in H1. apply place_task_inv in H2.
    apply IH in H. subst st' st2 st1. reflexivity.
Qed.

Lemma plan_day_refines {E : Type} (parse : string -> E + datetime)
    (wake_time sleep_time : string) (tasks : list Task.t)
    (break_every break_len : Z) (s e : datetime) (blocks : list Block.t) :
  day_window parse wake_time sleep_time = inr (s, e) ->
  plan_day parse wake_time sleep_time tasks break_every break_len = inr blocks ->
  blocks = spec_plan s e break_every break_len (sorted tasks).
Proof.
  intros Hw H. unfold plan_day, schedule in H. rewrite Hw in H.
  cbn [bind fst snd] in H.
  apply bind_inr in H as (st & Hrun & H). injection H as <-.
  apply run_tasks_refines in Hrun. subst st. reflexivity.
Qed.

Lemma plan_day_returns_spec {E : Type} (parse : string -> E + datetime)
    (wake_time sleep_time : string) (tasks : list Task.t)
    (break_every break_len : Z) (s e : datetime) :
  day_window parse wake_time sleep_time = inr (s, e) ->
  0 <= s ->
  has_room (Z.max s e) break_len ->
  Forall (fun t => has_room (Z.max s e) (Task.duration t)) tasks ->
  plan_day parse wake_time sleep_time tasks break_every break_len
    = inr (spec_plan s e break_every break_len (sorted tasks)).
Proof.
  intros Hw Hs Hbl Htasks.
  destruct (run_tasks_returns E e (Z.max s e) break_every break_len ltac:(lia) Hbl
              (sorted tasks) (sorted_Forall _ _ Htasks) (mkState s 0 []))
    as (st & Hrun).
  { unfold in_bounds; cbn [cur]. lia. }
  assert (H : plan_day parse wake_time sleep_time tasks break_every break_len
              = inr (close_plan e st)).
  { unfold plan_day, schedule. rewrite Hw. cbn [bind fst snd]. now rewrite Hrun. }
  rewrite H. f_equal. now apply (plan_day_refines parse wake_time sleep_time tasks).
Qed.

Lemma spec_walk_app (end_ break_every break_len : Z) (l1 l2 : list Task.t)
    (st : state) :
  spec_walk end_ break_every break_len (l1 ++ l2) st =
  spec_walk end_ break_every break_len l2 (spec_walk end_ break_every break_len l1 st).
Proof. unfold spec_walk. apply fold_left_app. Qed.

Lemma spec_walk_cons (end_ break_every break_len : Z) (t : Task.t)
    (rest : list Task.t) (st : state) :
  spec_walk end_ break_every break_len (t :: rest) st =
  spec_walk end_ break_every break_len rest
    (spec_place end_ (spec_break end_ break_every break_len st) t).
Proof. reflexivity. Qed.

Lemma spec_break_extends (end_ break_every break_len : Z) (st : state) :
  exists r, plan (spec_break end_ break_every break_len st) = plan st ++ r.
Proof.
  unfold spec_break. destruct (_ && _); cbn [plan]; eexists; [reflexivity|].
  symmetry. apply app_nil_r.
Qed.

Lemma spec_place_extends (end_ : Z) (st : state) (t : Task.t) :
  exists r, plan (spec_place end_ st t) = plan st ++ r.
Proof.
  unfold spec_place. destruct (_ <=? _); cbn [plan]; eexists; [reflexivity|].
  symmetry. apply app_nil_r.
Qed.

Lemma spec_walk_extends (end_ break_every break_len : Z) (tasks : list Task.t) :
  forall st, exists r, plan (spec_walk end_ break_every break_len tasks st) = plan st ++ r.
Proof.
  induction tasks as [|t rest IH]; intros st.
  - exists []. symmetry. apply app_nil_r.
  - rewrite spec_walk_cons.
    destruct (IH (spec_place end_ (spec_break end_ break_every break_len st) t))
      as (r3 & ->).
    destruct (spec_place_extends end_ (spec_break end_ break_every break_len st) t)
      as (r2 & ->).
    destruct (spec_break_extends end_ break_every break_len st) as (r1 & ->).
    exists (r1 ++ r2 ++ r3). now rewrite <- !app_assoc.
Qed.

Lemma nth_error_at {A : Type} (p q : list A) (x : A) :
  nth_error (p ++ x :: q) (List.length p) = Some x.
Proof. induction p as [|y p IH]; [reflexivity | exact IH]. Qed.

Lemma filter_split {A : Type} (f : A -> bool) (l : list A) :
  forall x1 a x2,
  filter f l = x1 ++ a :: x2 ->
  exists pre post, l = pre ++ a :: post /\ filter f post = x2.
Proof.
  induction l as [|y l IH]; intros x1 a x2 H; cbn [filter] in H.
  - now destruct x1.
  - destruct (f y) eqn:Hy.
    + destruct x1 as [|z x1]; cbn [app] in H; injection H as -> H.
      * exists [], l. now split.
      * destruct (IH _ _ _ H) as (pre & post & -> & Hpost).
        exists (z :: pre), post. now split.
    + destruct (IH _ _ _ H) as (pre & post & -> & Hpost).
      exists (y :: pre), post. now split.
Qed.

(** Stability, position by position: of two tasks of equal priority and
    duration, the one given first is processed first. *)
Lemma sorted_keeps_ties (tasks l1 l2 l3 : list Task.t) (a b : Task.t) :
  tasks = l1 ++ a :: l2 ++ b :: l3 ->
  Task.priority a = Task.priority b -> Task.duration a = Task.duration b ->
  exists pre mid post, sorted tasks = pre ++ a :: mid ++ b :: post.
Proof.
  intros -> Hp Hd.
  pose proof (sorted_stable (Task.priority a) (Task.duration a)
                (l1 ++ a :: l2 ++ b :: l3)) as H.
  rewrite filter_app in H. cbn [filter] in H. rewrite filter_app in H.
  cbn [filter] in H.
  assert (Ha : same_rank (Task.priority a) (Task.duration a) a = true)
    by (unfold same_rank; now rewrite !Z.eqb_refl).
  assert (Hb : same_rank (Task.priority a) (Task.duration a) b = true)
    by (unfold same_rank; rewrite Hp, Hd; now rewrite !Z.eqb_refl).
  rewrite Ha, Hb in H.
  apply filter_split in H as (pre & rest & Hs & Hrest).
  apply filter_split in Hrest as (mid & post & -> & _).
  now exists pre, mid, post.
Qed.

Lemma spec_plan_tie_positions (s e break_every break_len : Z)
    (pre mid post : list Task.t) (a b : Task.t) :
  let st0 := mkState s 0 [] in
  let sa := spec_break e break_every break_len
              (spec_walk e break_every break_len pre st0) in
  let sb := spec_break e break_every break_len
              (spec_walk e break_every break_len (pre ++ a :: mid) st0) in
  cur sa + Task.duration a * US_PER_MINUTE <= e ->
  cur sb + Task.duration b * US_PER_MINUTE <= e ->
  exists i j,
    (i < j)%nat /\
    nth_error (spec_plan s e break_every break_len (pre ++ a :: mid ++ b :: post)) i
      = Some (Block.mk (cur sa) (cur sa + Task.duration a * US_PER_MINUTE)
                (Task.name a)) /\
    nth_error (spec_plan s e break_every break_len (pre ++ a :: mid ++ b :: post)) j
      = Some (Block.mk (cur sb) (cur sb + Task.duration b * US_PER_MINUTE)
                (Task.name b)).
Proof.
  intros st0 sa sb Hfa Hfb.
  set (A := Block.mk (cur sa) (cur sa + Task.duration a * US_PER_MINUTE) (Task.name a)).
  set (B := Block.mk (cur sb) (cur sb + Task.duration b * US_PER_MINUTE) (Task.name b)).
  assert (Hsb : exists r, plan sb = plan sa ++ A :: r).
  { subst sb. rewrite spec_walk_app, spec_walk_cons. fold sa.
    assert (Hpa : spec_place e sa a
                  = mkState (cur sa + Task.duration a * US_PER_MINUTE)
                      (focus sa + Task.duration a) (plan sa ++ [A])).
    { unfold spec_place. apply Z.leb_le in Hfa. now rewrite Hfa. }
    rewrite Hpa.
    destruct (spec_break_extends e break_every break_len
                (spec_walk e break_every break_len mid
                   (mkState (cur sa + Task.duration a * US_PER_MINUTE)
                      (focus sa + Task.duration a) (plan sa ++ [A])))) as (r2 & ->).
    destruct (spec_walk_extends e break_every break_len mid
                (mkState (cur sa + Task.duration a * US_PER_MINUTE)
                   (focus sa + Task.duration a) (plan sa ++ [A]))) as (r1 & ->).
    cbn [plan]. exists (r1 ++ r2). now rewrite <- !app_assoc. }
  destruct Hsb as (r & Hsb).
  assert (Hfin : exists r', spec_plan s e break_every break_len
                              (pre ++ a :: mid ++ b :: post) = plan sb ++ B :: r').
  { unfold spec_plan. fold st0.
    replace (pre ++ a :: mid ++ b :: post) with ((pre ++ a :: mid) ++ b :: post)
      by (rewrite <- app_assoc; reflexivity).
    rewrite spec_walk_app, spec_walk_cons. fold sb.
    assert (Hpb : spec_place e sb b
                  = mkState (cur sb + Task.duration b * US_PER_MINUTE)
                      (focus sb + Task.duration b) (plan sb ++ [B]))
      by (unfold spec_place; apply Z.leb_le in Hfb; now rewrite Hfb).
    rewrite Hpb.
    destruct (spec_walk_extends e break_every break_len post
                (mkState (cur sb + Task.duration b * US_PER_MINUTE)
                   (focus sb + Task.duration b) (plan sb ++ [B]))) as (r3 & Hr3).
    rewrite Hr3. cbn [plan].
    destruct (cur _ <? e); eexists; rewrite <- !app_assoc; reflexivity. }
  destruct Hfin as (r' & Hfin).
  exists (List.length (plan sa)), (List.length (plan sb)). split; [|split].
  - rewrite Hsb, length_app. cbn [List.length]. lia.
  - rewrite Hfin, Hsb, <- app_assoc. cbn [app]. apply nth_error_at.
  - rewrite Hfin. apply nth_error_at.
Qed.

(** ** C4: the processing order *)

(** C4.  Every plan that [plan_day] returns is the plan of the design
    document's walk over [sorted tasks], taken from the front; [sorted tasks]
    is the input rearranged by priority descending, then duration
    descending, tasks of equal priority and duration keeping their input
    order.  So of two tasks of equal priority and duration, the one given
    first is processed first, and when both are placed its block comes
    first in the output. *)
Theorem plan_day_processing_order {E : Type} (parse : string -> E + datetime)
    (wake_time sleep_time : string) (tasks : list Task.t)
    (break_every break_len : Z) :
  (forall s e blocks,
     day_window parse wake_time sleep_time = inr (s, e) ->
     plan_day parse wake_time sleep_time tasks break_every break_len = inr blocks ->
     blocks = spec_plan s e break_every break_len (sorted tasks)) /\
  Permutation tasks (sorted tasks) /\
  StronglySorted
    (fun a b => Task.priority a > Task.priority b \/
                (Task.priority a = Task.priority b /\
                 Task.duration a >= Task.duration b))
    (sorted tasks) /\
  (forall p d,
     filter (fun t => (Task.priority t =? p) && (Task.duration t =? d)) (sorted tasks) =
     filter (fun t => (Task.priority t =? p) && (Task.duration t =? d)) tasks) /\
  (forall l1 a l2 b l3,
     tasks = l1 ++ a :: l2 ++ b :: l3 ->
     Task.priority a = Task.priority b -> Task.duration a = Task.duration b ->
     exists pre mid post,
       sorted tasks = pre ++ a :: mid ++ b :: post /\
       forall s e blocks,
         day_window parse wake_time sleep_time = inr (s, e) ->
         plan_day parse wake_time sleep_time tasks break_every break_len = inr blocks ->
         let sa := spec_break e break_every break_len
                     (spec_walk e break_every break_len pre (mkState s 0 [])) in
         let sb := spec_break e break_every break_len
                     (spec_walk e break_every break_len (pre ++ a :: mid)
                        (mkState s 0 [])) in
         cur sa + Task.duration a * US_PER_MINUTE <= e ->
         cur sb + Task.duration b * US_PER_MINUTE <= e ->
         exists i j,
           (i < j)%nat /\
           nth_error blocks i
             = Some (Block.mk (cur sa) (cur sa + Task.duration a * US_PER_MINUTE)
                       (Task.name a)) /\
           nth_error blocks j
             = Some (Block.mk (cur sb) (cur sb + Task.duration b * US_PER_MINUTE)
                       (Task.name b))).
Proof.
  split; [intros s e blocks; apply plan_day_refines|].
  split; [apply sorted_perm|]. split; [apply sorted_sorted|].
  split; [intros p d; apply (sorted_stable p d)|].
  intros l1 a l2 b l3 Htasks Hp Hd.
  destruct (sorted_keeps_ties tasks l1 l2 l3 a b Htasks Hp Hd) as (pre & mid & post & Hs).
  exists pre, mid, post. split; [exact Hs|].
  intros s e blocks Hw H sa sb Hfa Hfb.
  apply (plan_day_refines parse _ _ _ _ _ s e) in H; [|exact Hw].
  rewrite H, Hs. now apply spec_plan_tie_positions.
Qed.

Lemma plan_day_processing_order_witness :
  exists i j,
    (i < j)%nat /\
    nth_error
      [ Block.mk (mk_datetime 2024 1 1 6 30) (mk_datetime 2024 1 1 7 30) "Write report";
        Block.mk (mk_datetime 2024 1 1 7 30) (mk_datetime 2024 1 1 7 35) SHORT_BREAK;
        Block.mk (mk_datetime 2024 1 1 7 35) (mk_datetime 2024 1 1 8 5) "Email";
        Block.mk (mk_datetime 2024 1 1 8 5) (mk_datetime 2024 1 1 8 35) "Call";
        Block.mk (mk_datetime 2024 1 1 8 35) (mk_datetime 2024 1 1 22 30) FREE_TIME ] i
      = Some (Block.mk (mk_datetime 2024 1 1 7 35) (mk_datetime 2024 1 1 8 5) "Email") /\
    nth_error
      [ Block.mk (mk_datetime 2024 1 1 6 30) (mk_datetime 2024 1 1 7 30) "Write report";
        Block.mk (mk_datetime 2024 1 1 7 30) (mk_datetime 2024 1 1 7 35) SHORT_BREAK;
        Block.mk (mk_datetime 2024 1 1 7 35) (mk_datetime 2024 1 1 8 5) "Email";
        Block.mk (mk_datetime 2024 1 1 8 5) (mk_datetime 2024 1 1 8 35) "Call";
        Block.mk (mk_datetime 2024 1 1 8 35) (mk_datetime 2024 1 1 22 30) FREE_TIME ] j
      = Some (Block.mk (mk_datetime 2024 1 1 8 5) (mk_datetime 2024 1 1 8 35) "Call").
Proof.
  destruct (proj2 (proj2 (proj2 (proj2
              (plan_day_processing_order sample_parse "06:30 AM" "10:30 PM"
                 [Task.mk "Email" 30 2; Task.mk "Write report" 60 5; Task.mk "Call" 30 2]
                 60 5))))
              [] (Task.mk "Email" 30 2) [Task.mk "Write report" 60 5]
              (Task.mk "Call" 30 2) [] eq_refl eq_refl eq_refl)
    as (pre & mid & post & Hs & Hpos).
  assert (Hval : sorted [Task.mk "Email" 30 2; Task.mk "Write report" 60 5;
                        Task.mk "Call" 30 2]
                 = [Task.mk "Write report" 60 5; Task.mk "Email" 30 2;
                    Task.mk "Call" 30 2]) by reflexivity.
  rewrite Hval in Hs. clear Hval.
  assert (Hpre : pre = [Task.mk "Write report" 60 5] /\ mid = []).
  { destruct pre as [|x [|y [|z pre]]]; cbn [app] in Hs.
    - exfalso. congruence.
    - destruct mid as [|m [|m' mid]]; cbn [app] in Hs.
      + split; congruence.
      + exfalso. congruence.
      + exfalso. congruence.
    - exfalso. congruence.
    - exfalso. destruct pre; cbn [app] in Hs; congruence. }
  destruct Hpre as [-> ->].
  apply (Hpos (mk_datetime 2024 1 1 6 30) (mk_datetime 2024 1 1 22 30)).
  - vm_compute; reflexivity.
  - vm_compute; reflexivity.
  - vm_compute; discriminate.
  - vm_compute; discriminate.
Defined.

(** ** C5: the day rollover *)

(** C5, as the design document states it, fails: a sleep string that names
    a date is still behind the wake time after one day has been added. *)
Lemma window_end_before_start :
  day_window sample_parse "2024-01-05 07:00 AM" "2024-01-01 07:00 AM"
    = inr (mk_datetime 2024 1 5 7 0, mk_datetime 2024 1 2 7 0) /\
  ~ (mk_datetime 2024 1 5 7 0 < mk_datetime 2024 1 2 7 0).
Proof. split; [vm_compute; reflexivity | vm_compute; discriminate]. Qed.

(** C5, amended.  A sleep timestamp that is not strictly after the wake
    timestamp is advanced by exactly one day (provided that day exists);
    afterwards the window end is strictly after the window start whenever
    the sleep timestamp was less than one day behind the wake timestamp, and
    equal timestamps give a window of 24 hours. *)
Theorem day_window_rollover {E : Type} (parse : string -> E + datetime)
    (wake_time sleep_time : string) (s e : datetime) :
  parse wake_time = inr s -> parse sleep_time = inr e ->
  (e <= s -> representable (e + one_day)) ->
  exists e',
    day_window parse wake_time sleep_time = inr (s, e') /\
    e' = (if e <=? s then e + one_day else e) /\
    (s - one_day < e -> s < e') /\
    (e = s -> e' - s = 24 * US_PER_HOUR).
Proof.
  intros Hs He Hr. exists (window_end s e).
  split; [now apply day_window_spec|]. split; [reflexivity|].
  split; [apply window_end_after|].
  intros ->. unfold window_end. rewrite Z.leb_refl.
  unfold one_day, US_PER_DAY, US_PER_HOUR. lia.
Qed.

Lemma day_window_rollover_witness :
  exists e',
    day_window sample_parse "07:00 AM" "07:00 AM" = inr (mk_datetime 2024 1 1 7 0, e') /\
    e' = mk_datetime 2024 1 2 7 0.
Proof.
  destruct (day_window_rollover sample_parse "07:00 AM" "07:00 AM"
              (mk_datetime 2024 1 1 7 0) (mk_datetime 2024 1 1 7 0)
              eq_refl eq_refl) as (e' & Hw & He & _).
  - intros _. vm_compute. split; [discriminate | reflexivity].
  - exists e'. split; [exact Hw | rewrite He; vm_compute; reflexivity].
Defined.

(** ** C6: the trailing buffer *)

(** C6.  With a non-empty window and no task the plan is the single block
    "Free Time / Buffer" over the whole window; in general the plan is what
    the loop has placed, followed by a buffer block from the cursor to the
    window end exactly when the cursor is strictly before the window end. *)
Theorem plan_day_trailing_buffer {E : Type} (parse : string -> E + datetime)
    (wake_time sleep_time : string) (break_every break_len : Z) (s e : datetime) :
  day_window parse wake_time sleep_time = inr (s, e) ->
  (s < e ->
   plan_day parse wake_time sleep_time [] break_every break_len
     = inr [Block.mk s e FREE_TIME]) /\
  (forall tasks st,
     @run_tasks E e break_every break_len (sorted tasks) (mkState s 0 []) = inr st ->
     plan_day parse wake_time sleep_time tasks break_every break_len
       = inr (plan st ++ (if cur st <? e then [Block.mk (cur st) e FREE_TIME] else []))).
Proof.
  intros Hw. unfold plan_day, schedule. rewrite Hw. cbn [bind fst snd]. split.
  - intros Hlt. cbn [sorted fold_right run_tasks bind ret].
    unfold close_plan; cbn [cur plan]. apply Z.ltb_lt in Hlt. now rewrite Hlt.
  - intros tasks st ->. cbn [bind ret]. unfold close_plan.
    destruct (cur st <? e); [reflexivity | now rewrite app_nil_r].
Qed.

Lemma plan_day_trailing_buffer_witness :
  plan_day sample_parse "07:00 AM" "07:00 AM" [] 60 5
    = inr [Block.mk (mk_datetime 2024 1 1 7 0) (mk_datetime 2024 1 2 7 0) FREE_TIME].
Proof.
  apply (proj1 (plan_day_trailing_buffer sample_parse "07:00 AM" "07:00 AM" 60 5
                  (mk_datetime 2024 1 1 7 0) (mk_datetime 2024 1 2 7 0)
                  ltac:(vm_compute; reflexivity))).
  vm_compute; reflexivity.
Defined.

(** ** C2 and C3: what one iteration does, and where blocks come from *)

Lemma plan_day_accounts {E : Type} (parse : string -> E + datetime)
    (wake_time sleep_time : string) (tasks : list Task.t)
    (break_every break_len : Z) (blocks : list Block.t) :
  plan_day parse wake_time sleep_time tasks break_every break_len = inr blocks ->
  exists body buffer,
    blocks = body ++ buffer /\
    accounts break_len (sorted tasks) body /\
    (buffer = [] \/ exists b, buffer = [b] /\ Block.name b = FREE_TIME).
Proof.
  unfold plan_day, schedule. intros H.
  apply bind_inr in H as (w & _ & H).
  apply bind_inr in H as (st & Hrun & H). injection H as <-.
  apply run_tasks_accounts in Hrun as (bs & Hbs & Hacc). cbn [plan app] in Hbs.
  unfold close_plan. rewrite Hbs.
  destruct (cur st <? snd w).
  - exists bs. eexists. split; [reflexivity|]. split; [assumption|].
    right. eexists. split; reflexivity.
  - exists bs, []. split; [now rewrite app_nil_r|]. split; [assumption | now left].
Qed.

(** The placement of a task, on every input. *)
Lemma place_task_total {E : Type} (end_ : Z) (st : state) (t : Task.t) :
  @place_task E end_ st t =
    if minutes_okb (Task.duration t) &&
       representableb (cur st + Task.duration t * US_PER_MINUTE)
    then inr (if cur st + Task.duration t * US_PER_MINUTE <=? end_
              then mkState (cur st + Task.duration t * US_PER_MINUTE)
                           (focus st + Task.duration t)
                           (plan st ++ [Block.mk (cur st)
                                          (cur st + Task.duration t * US_PER_MINUTE)
                                          (Task.name t)])
              else st)
    else inl OverflowError.
Proof.
  unfold place_task, timedelta_minutes.
  destruct (minutes_okb _); cbn [andb bind ret raise]; [|reflexivity].
  unfold dt_add.
  destruct (representableb _); cbn [bind ret raise]; [|reflexivity].
  destruct (_ <=? _); reflexivity.
Qed.

(** The break check, on every input. *)
Lemma take_break_total {E : Type} (end_ break_every break_len : Z) (st : state) :
  @take_break E end_ break_every break_len st =
    if focus st >=? break_every then
      if minutes_okb break_len &&
         representableb (cur st + break_len * US_PER_MINUTE)
      then inr (if cur st + break_len * US_PER_MINUTE <=? end_
                then mkState (cur st + break_len * US_PER_MINUTE) 0
                             (plan st ++ [Block.mk (cur st)
                                            (cur st + break_len * US_PER_MINUTE)
                                            SHORT_BREAK])
                else st)
      else inl OverflowError
    else inr st.
Proof.
  unfold take_break, break_due, timedelta_minutes.
  destruct (focus st >=? break_every); cbn [bind ret]; [|reflexivity].
  destruct (minutes_okb _); cbn [andb bind ret raise]; [|reflexivity].
  unfold dt_add.
  destruct (representableb _); cbn [bind ret raise]; [|reflexivity].
  destruct (_ <=? _); reflexivity.
Qed.

(** C2.  The placement of a task, for every cursor, focus counter, plan and
    task: when [cur + duration] is not a timestamp the addition raises
    [OverflowError]; otherwise, if [cur + duration] is not after the window
    end, one block from the cursor to [cur + duration] carrying the task's
    name is appended, the cursor moves to its end and the focus counter
    grows by the duration, and if it is after the window end, cursor, focus
    counter and plan are unchanged.  In a returned plan, every block before
    the trailing buffer is a break or the whole block of a task, each task
    accounting for at most one block, in processing order.  Every plan that
    [plan_day] returns is the plan of the design document's walk, in which
    each task is placed exactly when it fits at the cursor; and [plan_day]
    returns that plan whenever the durations and the break length are
    non-negative and can be added to the later end of the window. *)
Theorem task_placed_whole_or_dropped {E : Type} (parse : string -> E + datetime)
    (wake_time sleep_time : string) (tasks : list Task.t)
    (break_every break_len : Z) :
  (forall end_ st t,
     @place_task E end_ st t =
       if minutes_okb (Task.duration t) &&
          representableb (cur st + Task.duration t * US_PER_MINUTE)
       then inr (if cur st + Task.duration t * US_PER_MINUTE <=? end_
                 then mkState (cur st + Task.duration t * US_PER_MINUTE)
                              (focus st + Task.duration t)
                              (plan st ++ [Block.mk (cur st)
                                             (cur st + Task.duration t * US_PER_MINUTE)
                                             (Task.name t)])
                 else st)
       else inl OverflowError) /\
  (forall blocks,
     plan_day parse wake_time sleep_time tasks break_every break_len = inr blocks ->
     exists body buffer,
       blocks = body ++ buffer /\
       accounts break_len (sorted tasks) body /\
       (buffer = [] \/ exists b, buffer = [b] /\ Block.name b = FREE_TIME)) /\
  (forall s e blocks,
     day_window parse wake_time sleep_time = inr (s, e) ->
     plan_day parse wake_time sleep_time tasks break_every break_len = inr blocks ->
     blocks = spec_plan s e break_every break_len (sorted tasks)) /\
  (forall s e,
     day_window parse wake_time sleep_time = inr (s, e) ->
     0 <= s ->
     has_room (Z.max s e) break_len ->
     Forall (fun t => has_room (Z.max s e) (Task.duration t)) tasks ->
     plan_day parse wake_time sleep_time tasks break_every break_len
       = inr (spec_plan s e break_every break_len (sorted tasks))).
Proof.
  split; [|split; [|split]].
  - intros end_ st t. apply place_task_total.
  - intros blocks. apply plan_day_accounts.
  - intros s e blocks. apply plan_day_refines.
  - intros s e. apply plan_day_returns_spec.
Qed.

Lemma task_placed_whole_or_dropped_witness :
  @place_task string (mk_datetime 2024 1 1 22 30)
    (mkState (mk_datetime 2024 1 1 22 0) 0 []) (Task.mk "Gym" 45 3)
  = inr (mkState (mk_datetime 2024 1 1 22 0) 0 []) /\
  (exists body buffer,
     [ Block.mk (mk_datetime 2024 1 1 6 30) (mk_datetime 2024 1 1 8 30) "Write report";
       Block.mk (mk_datetime 2024 1 1 8 30) (mk_datetime 2024 1 1 22 30) FREE_TIME ]
       = body ++ buffer /\
     accounts 5 (sorted [Task.mk "Write report" 120 5]) body /\
     (buffer = [] \/ exists b, buffer = [b] /\ Block.name b = FREE_TIME)) /\
  plan_day sample_parse "06:30 AM" "10:30 PM"
    [Task.mk "Marathon" 1000 5; Task.mk "Email" 30 1] 60 5
  = inr (spec_plan (mk_datetime 2024 1 1 6 30) (mk_datetime 2024 1 1 22 30) 60 5
           (sorted [Task.mk "Marathon" 1000 5; Task.mk "Email" 30 1])) /\
  spec_plan (mk_datetime 2024 1 1 6 30) (mk_datetime 2024 1 1 22 30) 60 5
    (sorted [Task.mk "Marathon" 1000 5; Task.mk "Email" 30 1])
  = [ Block.mk (mk_datetime 2024 1 1 6 30) (mk_datetime 2024 1 1 7 0) "Email";
      Block.mk (mk_datetime 2024 1 1 7 0) (mk_datetime 2024 1 1 22 30) FREE_TIME ].
Proof.
  pose proof (task_placed_whole_or_dropped sample_parse "06:30 AM" "10:30 PM"
                [Task.mk "Write report" 120 5] 60 5) as (Hstep & Hrun & _).
  pose proof (task_placed_whole_or_dropped sample_parse "06:30 AM" "10:30 PM"
                [Task.mk "Marathon" 1000 5; Task.mk "Email" 30 1] 60 5)
    as (_ & _ & _ & Hret).
  split; [rewrite Hstep; vm_compute; reflexivity|].
  split; [apply Hrun; vm_compute; reflexivity|].
  split; [|vm_compute; reflexivity].
  apply Hret.
  - vm_compute; reflexivity.
  - vm_compute; discriminate.
  - vm_compute. split; [discriminate | reflexivity].
  - repeat constructor; vm_compute; discriminate.
Defined.




(** ** C7: failures *)

Lemma take_break_inl {E : Type} (end_ break_every break_len : Z) (st : state)
    (x : exn E) :
  take_break end_ break_every break_len st = inl x -> x = OverflowError.
Proof.
  rewrite take_break_total.
  destruct (_ >=? _); [|discriminate].
  destruct (_ && _); [discriminate|]. now intros [= <-].
Qed.

Lemma place_task_inl {E : Type} (end_ : Z) (st : state) (t : Task.t) (x : exn E) :
  place_task end_ st t = inl x -> x = OverflowError.
Proof.
  rewrite place_task_total.
  destruct (_ && _); [discriminate|]. now intros [= <-].
Qed.

Lemma run_tasks_inl {E : Type} (end_ break_every break_len : Z)
    (tasks : list Task.t) (x : exn E) :
  forall st, run_tasks end_ break_every break_len tasks st = inl x ->
             x = OverflowError.
Proof.
  induction tasks as [|t rest IH]; intros st H; cbn [run_tasks] in H; [discriminate|].
  destruct (take_break _ _ _ st) as [y|st1] eqn:H1; cbn [bind] in H.
  - injection H as <-. eapply take_break_inl; eassumption.
  - destruct (place_task _ st1 t) as [y|st2] eqn:H2; cbn [bind] in H.
    + injection H as <-. eapply place_task_inl; eassumption.
    + eapply IH; eassumption.
Qed.

Lemma schedule_inl {E : Type} (s e break_every break_len : Z)
    (ordered : list Task.t) (x : exn E) :
  schedule s e ordered break_every break_len = inl x -> x = OverflowError.
Proof.
  unfold schedule.
  destruct (run_tasks _ _ _ ordered _) as [y|st] eqn:H; cbn [bind ret]; [|discriminate].
  intros [= <-]. eapply run_tasks_inl; eassumption.
Qed.

Lemma plan_day_parser_error {E : Type} (parse : string -> E + datetime)
    (wake_time sleep_time : string) (tasks : list Task.t)
    (break_every break_len : Z) (x : E) :
  plan_day parse wake_time sleep_time tasks break_every break_len
    = inl (ParserError x) <->
  parse wake_time = inl x \/
  (exists s, parse wake_time = inr s /\ parse sleep_time = inl x).
Proof.
  unfold plan_day, day_window, parse_time.
  destruct (parse wake_time) as [a|s]; cbn [bind raise ret].
  - split.
    + intros [= ->]. now left.
    + intros [[= ->]|(s & [=] & _)]. reflexivity.
  - destruct (parse sleep_time) as [b|e]; cbn [bind raise ret].
    + split.
      * intros [= ->]. right. now exists s.
      * intros [[=]|(s' & _ & [= ->])]. reflexivity.
    + split; [|intros [[=]|(s' & _ & [=])]].
      intros H. exfalso.
      destruct (e <=? s).
      * unfold dt_add in H. destruct (representableb _); cbn [bind ret raise fst snd] in H;
          [apply schedule_inl in H|]; discriminate.
      * cbn [bind ret fst snd] in H. apply schedule_inl in H. discriminate.
Qed.

(** C7, as the design document states it, fails: both strings parse and
    [plan_day] raises [OverflowError], because [timedelta(minutes=10**13)]
    does not exist. *)
Lemma plan_day_overflow :
  (exists s e, sample_parse "06:30 AM" = inr s /\ sample_parse "10:30 PM" = inr e) /\
  plan_day sample_parse "06:30 AM" "10:30 PM"
    [Task.mk "Write report" 10000000000000 5] 60 5 = inl OverflowError.
Proof.
  split; [do 2 eexists; split; vm_compute; reflexivity | vm_compute; reflexivity].
Qed.

(** C7, amended.  [plan_day] fails with the parser's error if and only if
    the wake string, or else the sleep string, is rejected by the parser,
    and the error is the parser's own, unchanged (a failed call returns no
    blocks).  That is not its only failure, as the run above shows.  For
    the timestamps of this model, which carry no time zone, [plan_day]
    does return a plan when the wake timestamp and the window end are
    timestamps and every task duration and the break length are
    non-negative numbers of minutes that can still be added to the later
    of the two. *)
Theorem plan_day_failure_modes {E : Type} (parse : string -> E + datetime)
    (wake_time sleep_time : string) (tasks : list Task.t)
    (break_every break_len : Z) :
  (forall x,
     plan_day parse wake_time sleep_time tasks break_every break_len
       = inl (ParserError x) <->
     parse wake_time = inl x \/
     (exists s, parse wake_time = inr s /\ parse sleep_time = inl x)) /\
  (forall s e,
     parse wake_time = inr s -> parse sleep_time = inr e ->
     0 <= s -> representable (window_end s e) ->
     has_room (Z.max s (window_end s e)) break_len ->
     Forall (fun t => has_room (Z.max s (window_end s e)) (Task.duration t)) tasks ->
     exists blocks,
       plan_day parse wake_time sleep_time tasks break_every break_len = inr blocks).
Proof.
  split.
  - intros x. apply plan_day_parser_error.
  - intros s e. apply plan_day_returns.
Qed.

Lemma plan_day_failure_modes_witness :
  plan_day sample_parse "half past six" "10:30 PM" [Task.mk "Write report" 120 5] 60 5
    = inl (ParserError "half past six") /\
  exists blocks,
    plan_day sample_parse "06:30 AM" "10:30 PM" [Task.mk "Write report" 120 5] 60 5
      = inr blocks.
Proof.
  pose proof (plan_day_failure_modes sample_parse "half past six" "10:30 PM"
                [Task.mk "Write report" 120 5] 60 5) as [Hfail _].
  pose proof (plan_day_failure_modes sample_parse "06:30 AM" "10:30 PM"
                [Task.mk "Write report" 120 5] 60 5) as [_ Hok].
  split.
  - apply Hfail. left. vm_compute. reflexivity.
  - apply (Hok (mk_datetime 2024 1 1 6 30) (mk_datetime 2024 1 1 22 30)).
    + vm_compute; reflexivity.
    + vm_compute; reflexivity.
    + vm_compute; discriminate.
    + vm_compute. split; [discriminate | reflexivity].
    + vm_compute. split; [discriminate | reflexivity].
    + repeat constructor; vm_compute; discriminate.
Defined.

(** ** C8: degenerate windows *)

(** With the cursor at or past the window end, an iteration changes nothing. *)
Lemma run_tasks_idle {E : Type} (end_ break_every break_len : Z) (st : state)
    (tasks : list Task.t) :
  end_ <= cur st -> 0 <= cur st ->
  0 < break_len -> has_room (cur st) break_len ->
  Forall (fun t => 0 < Task.duration t /\ has_room (cur st) (Task.duration t)) tasks ->
  @run_tasks E end_ break_every break_len tasks st = inr st.
Proof.
  intros He Hc Hbl Hroom. induction 1 as [|t rest [Hd Ht] Hrest IH]; [reflexivity|].
  cbn [run_tasks]. rewrite take_break_spec.
  - replace (cur st + break_len * US_PER_MINUTE <=? end_) with false
      by (symmetry; apply Z.leb_gt; unfold US_PER_MINUTE; lia).
    rewrite andb_false_r. cbn [bind ret].
    rewrite place_task_spec.
    + replace (cur st + Task.duration t * US_PER_MINUTE <=? end_) with false
        by (symmetry; apply Z.leb_gt; unfold US_PER_MINUTE; lia).
      cbn [bind ret]. exact IH.
    + apply (room_minutes_ok (cur st) (cur st)); [lia | exact Ht].
    + apply (room_representable (cur st)); [lia | exact Ht].
  - intros _. split.
    + apply (room_minutes_ok (cur st) (cur st)); [lia | exact Hroom].
    + apply (room_representable (cur st)); [lia | exact Hroom].
Qed.

(** C8, as the design document states it, fails on a window of length zero
    (a task of zero minutes is placed) and on a window of negative length
    (a duration that cannot be added to the cursor raises). *)
Lemma degenerate_window_not_empty_plan :
  (day_window sample_parse "2024-01-02 07:00 AM" "2024-01-01 07:00 AM"
     = inr (mk_datetime 2024 1 2 7 0, mk_datetime 2024 1 2 7 0) /\
   plan_day sample_parse "2024-01-02 07:00 AM" "2024-01-01 07:00 AM"
     [Task.mk "Stretch" 0 3] 60 5
     = inr [Block.mk (mk_datetime 2024 1 2 7 0) (mk_datetime 2024 1 2 7 0) "Stretch"]) /\
  (day_window sample_parse "2024-01-05 07:00 AM" "2024-01-01 07:00 AM"
     = inr (mk_datetime 2024 1 5 7 0, mk_datetime 2024 1 2 7 0) /\
   plan_day sample_parse "2024-01-05 07:00 AM" "2024-01-01 07:00 AM"
     [Task.mk "Write report" 10000000000000 5] 60 5
     = inl OverflowError).
Proof. repeat split; vm_compute; reflexivity. Qed.

(** C8, amended.  If the window has zero or negative length after the
    rollover, the task durations and the break length are positive, and
    each of them can still be added to the wake timestamp, then [plan_day]
    returns the empty plan. *)
Theorem degenerate_window_empty_plan {E : Type} (parse : string -> E + datetime)
    (wake_time sleep_time : string) (tasks : list Task.t)
    (break_every break_len : Z) (s e : datetime) :
  day_window parse wake_time sleep_time = inr (s, e) ->
  e <= s -> 0 <= s ->
  0 < break_len -> has_room s break_len ->
  Forall (fun t => 0 < Task.duration t /\ has_room s (Task.duration t)) tasks ->
  plan_day parse wake_time sleep_time tasks break_every break_len = inr [].
Proof.
  intros Hw He Hs Hbl Hroom Htasks. unfold plan_day, schedule.
  rewrite Hw. cbn [bind fst snd].
  rewrite run_tasks_idle; cbn [cur]; try assumption.
  - cbn [bind ret]. unfold close_plan; cbn [cur plan].
    replace (s <? e) with false by (symmetry; apply Z.ltb_ge; lia). reflexivity.
  - now apply sorted_Forall.
Qed.

Lemma degenerate_window_empty_plan_witness :
  plan_day sample_parse "2024-01-05 07:00 AM" "2024-01-01 07:00 AM"
    [Task.mk "Write report" 120 5; Task.mk "Email" 30 4] 0 5 = inr [].
Proof.
  apply (degenerate_window_empty_plan sample_parse _ _ _ 0 5
           (mk_datetime 2024 1 5 7 0) (mk_datetime 2024 1 2 7 0)).
  - vm_compute; reflexivity.
  - vm_compute; discriminate.
  - vm_compute; discriminate.
  - reflexivity.
  - vm_compute. split; [discriminate | reflexivity].
  - repeat constructor; vm_compute; discriminate.
Defined.

(** ** C10: at least one block *)

(** A run that leaves the plan empty has left the cursor where it was. *)
Lemma run_tasks_empty_plan {E : Type} (end_ break_every break_len : Z)
    (tasks : list Task.t) :
  forall st st' : state,
  @run_tasks E end_ break_every break_len tasks st = inr st' ->
  plan st' = [] -> cur st' = cur st.
Proof.
  induction tasks as [|t rest IH]; intros st st' H Hp; cbn [run_tasks] in H.
  - now injection H as <-.
  - apply bind_inr in H as (st1 & H1 & H).
    apply bind_inr in H as (st2 & H2 & H).
    pose proof (run_tasks_accounts _ _ _ _ _ _ H) as (bs & Hbs & _).
    rewrite (IH _ _ H Hp).
    rewrite Hp in Hbs. symmetry in Hbs. apply app_eq_nil in Hbs as [Hp2 _].
    apply place_task_inv in H2. destruct (_ <=? _) in H2.
    + subst st2. cbn [plan] in Hp2. now apply app_eq_nil in Hp2 as [_ [=]].
    + subst st2. apply take_break_inv in H1. destruct (_ && _) in H1.
      * subst st1. cbn [plan] in Hp2. now apply app_eq_nil in Hp2 as [_ [=]].
      * now subst st1.
Qed.

Lemma plan_day_not_nil {E : Type} (parse : string -> E + datetime)
    (wake_time sleep_time : string) (tasks : list Task.t)
    (break_every break_len : Z) (s e : datetime) (blocks : list Block.t) :
  parse wake_time = inr s -> parse sleep_time = inr e ->
  s - one_day < e ->
  plan_day parse wake_time sleep_time tasks break_every break_len = inr blocks ->
  blocks <> [].
Proof.
  intros Hs He Hnear H. unfold plan_day in H.
  apply bind_inr in H as (w & Hw & H).
  apply day_window_inr in Hw as (s' & e' & Hs' & He' & _ & ->).
  rewrite Hs in Hs'. rewrite He in He'. injection Hs' as <-. injection He' as <-.
  cbn [fst snd] in H. unfold schedule in H.
  apply bind_inr in H as (st & Hrun & H). injection H as <-.
  pose proof (window_end_after s e Hnear) as Hlt.
  unfold close_plan. destruct (cur st <? window_end s e) eqn:Hc.
  - intros Hnil. now apply app_eq_nil in Hnil as [_ [=]].
  - intros Hnil. apply Z.ltb_ge in Hc.
    apply (run_tasks_empty_plan _ _ _ _ _ _ Hrun) in Hnil. cbn [cur] in Hnil. lia.
Qed.

(** C10, as stated, fails: a sleep string naming a date four days before
    the wake string leaves a window of negative length, and the plan for it
    is empty. *)
Lemma plan_day_empty_plan :
  (exists s e, sample_parse "2024-01-05 07:00 AM" = inr s /\
               sample_parse "2024-01-01 07:00 AM" = inr e) /\
  plan_day sample_parse "2024-01-05 07:00 AM" "2024-01-01 07:00 AM" [] 60 5 = inr [].
Proof.
  split; [do 2 eexists; split; vm_compute; reflexivity | vm_compute; reflexivity].
Qed.

(** C10, amended.  When both strings parse and the sleep timestamp is less
    than one day behind the wake timestamp (as for two times of day on one
    date), the window is strictly positive and every plan returned by
    [plan_day] has at least one block, for every task list and all break
    parameters; a plan is returned whenever the [datetime] arithmetic stays
    in range. *)
Theorem plan_day_at_least_one_block {E : Type} (parse : string -> E + datetime)
    (wake_time sleep_time : string) (tasks : list Task.t)
    (break_every break_len : Z) (s e : datetime) :
  parse wake_time = inr s -> parse sleep_time = inr e ->
  s - one_day < e ->
  s < window_end s e /\
  (forall blocks,
     plan_day parse wake_time sleep_time tasks break_every break_len = inr blocks ->
     blocks <> []) /\
  (0 <= s -> representable (window_end s e) ->
   has_room (Z.max s (window_end s e)) break_len ->
   Forall (fun t => has_room (Z.max s (window_end s e)) (Task.duration t)) tasks ->
   exists blocks,
     plan_day parse wake_time sleep_time tasks break_every break_len = inr blocks /\
     blocks <> []).
Proof.
  intros Hs He Hnear. split; [now apply window_end_after|]. split.
  - intros blocks. now apply (plan_day_not_nil parse _ _ _ _ _ s e).
  - intros Hs0 Hr Hbl Htasks.
    destruct (plan_day_returns parse wake_time sleep_time tasks break_every break_len
                s e Hs He Hs0 Hr Hbl Htasks) as (blocks & H).
    exists blocks. split; [exact H|].
    now apply (plan_day_not_nil parse _ _ _ _ _ s e) in H.
Qed.

Lemma plan_day_at_least_one_block_witness :
  exists blocks,
    plan_day sample_parse "07:00 AM" "07:00 AM" [Task.mk "Gym" 2000 3] 60 5 = inr blocks /\
    blocks <> [].
Proof.
  apply (plan_day_at_least_one_block sample_parse "07:00 AM" "07:00 AM"
           [Task.mk "Gym" 2000 3] 60 5
           (mk_datetime 2024 1 1 7 0) (mk_datetime 2024 1 1 7 0)).
  - vm_compute; reflexivity.
  - vm_compute; reflexivity.
  - vm_compute; reflexivity.
  - vm_compute; discriminate.
  - vm_compute. split; [discriminate | reflexivity].
  - vm_compute. split; [discriminate | reflexivity].
  - repeat constructor; vm_compute; discriminate.
Defined.

(** ** C9: [format_blocks] *)

Lemma digit_value_digit (k : Z) : 0 <= k <= 9 -> digit_value (digit k) = Some k.
Proof.
  intros H.
  assert (k = 0 \/ k = 1 \/ k = 2 \/ k = 3 \/ k = 4 \/
          k = 5 \/ k = 6 \/ k = 7 \/ k = 8 \/ k = 9) as Hk by lia.
  repeat (destruct Hk as [->|Hk]; [reflexivity|]). now subst k.
Qed.

Lemma hour_range (t : datetime) : 0 <= hour t < 24.
Proof. unfold hour. apply Z.mod_pos_bound. lia. Qed.

Lemma minute_range (t : datetime) : 0 <= minute t < 60.
Proof. unfold minute. apply Z.mod_pos_bound. lia. Qed.

Lemma hour12_range (t : datetime) : 1 <= hour12 t <= 12.
Proof.
  unfold hour12. pose proof (Z.mod_pos_bound (hour t) 12 ltac:(lia)).
  destruct (hour t mod 12 =? 0) eqn:H0; [lia|]. apply Z.eqb_neq in H0. lia.
Qed.

Lemma hour12_hour (t : datetime) : hour12 t mod 12 = hour t mod 12.
Proof.
  unfold hour12. destruct (hour t mod 12 =? 0) eqn:H0.
  - apply Z.eqb_eq in H0. now rewrite H0.
  - now rewrite Z.mod_mod by lia.
Qed.

Lemma strftime_reads_clock12 (t : datetime) :
  reads_clock12 (strftime_I_M_p t) (hour12 t) (minute t) (12 <=? hour t).
Proof.
  pose proof (hour12_range t) as Hh. pose proof (minute_range t) as Hm.
  unfold reads_clock12, strftime_I_M_p, two_digits, am_pm.
  exists (digit (hour12 t / 10)), (digit (hour12 t mod 10)),
         (digit (minute t / 10)), (digit (minute t mod 10)).
  split.
  - cbn [String.append]. rewrite Z.leb_antisym.
    destruct (hour t <? 12); reflexivity.
  - pose proof (Z.mod_pos_bound (hour12 t) 10 ltac:(lia)).
    pose proof (Z.mod_pos_bound (minute t) 10 ltac:(lia)).
    assert (0 <= hour12 t / 10 <= 9)
      by (split; [apply Z.div_pos; lia | apply Z.lt_succ_r, Z.div_lt_upper_bound; lia]).
    assert (0 <= minute t / 10 <= 9)
      by (split; [apply Z.div_pos; lia | apply Z.lt_succ_r, Z.div_lt_upper_bound; lia]).
    repeat split; apply digit_value_digit; lia.
Qed.

(** C9.  [format_blocks] returns one row per block, in the same order; the
    row of a block carries the block's name unchanged and the two ends of
    the block as readings of a 12-hour clock, "hh:mm AM" or "hh:mm PM" with
    a two-digit hour from 01 to 12, joined by a dash. *)
Theorem format_blocks_rows (blocks : list Block.t) :
  List.length (format_blocks blocks) = List.length blocks /\
  map Task_ (format_blocks blocks) = map Block.name blocks /\
  (forall i b,
     nth_error blocks i = Some b ->
     exists from to,
       nth_error (format_blocks blocks) i
         = Some (mkRow (from ++ EN_DASH ++ to)%string (Block.name b)) /\
       reads_clock12 from (hour12 (Block.start b)) (minute (Block.start b))
         (12 <=? hour (Block.start b)) /\
       reads_clock12 to (hour12 (Block.end_ b)) (minute (Block.end_ b))
         (12 <=? hour (Block.end_ b)) /\
       1 <= hour12 (Block.start b) <= 12 /\ 1 <= hour12 (Block.end_ b) <= 12 /\
       hour12 (Block.start b) mod 12 = hour (Block.start b) mod 12 /\
       hour12 (Block.end_ b) mod 12 = hour (Block.end_ b) mod 12).
Proof.
  unfold format_blocks. split; [apply List.length_map|].
  split; [rewrite map_map; reflexivity|].
  intros i b Hi.
  exists (strftime_I_M_p (Block.start b)), (strftime_I_M_p (Block.end_ b)).
  split; [rewrite nth_error_map, Hi; reflexivity|].
  split; [apply strftime_reads_clock12|]. split; [apply strftime_reads_clock12|].
  split; [apply hour12_range|]. split; [apply hour12_range|].
  split; apply hour12_hour.
Qed.

Lemma format_blocks_rows_witness :
  exists from to,
    nth_error (format_blocks
                 [Block.mk (mk_datetime 2024 1 1 6 30) (mk_datetime 2024 1 1 8 30) "Write report";
                  Block.mk (mk_datetime 2024 1 1 12 5) (mk_datetime 2024 1 2 0 0) FREE_TIME]) 1
      = Some (mkRow (from ++ EN_DASH ++ to)%string FREE_TIME) /\
    reads_clock12 from 12 5 true /\ reads_clock12 to 12 0 false.
Proof.
  destruct (proj2 (proj2 (format_blocks_rows
              [Block.mk (mk_datetime 2024 1 1 6 30) (mk_datetime 2024 1 1 8 30) "Write report";
               Block.mk (mk_datetime 2024 1 1 12 5) (mk_datetime 2024 1 2 0 0) FREE_TIME]))
              1%nat _ eq_refl) as (from & to & Hrow & Hfrom & Hto & _).
  exists from, to. split; [exact Hrow | split; [exact Hfrom | exact Hto]].
Defined.

(** * [app.py]: model selection *)

Lemma mem_In (x : string) (l : list string) : mem x l = true <-> In x l.
Proof.
  unfold mem. rewrite existsb_exists. split.
  - intros (y & Hy & Heq). apply String.eqb_eq in Heq. now subst.
  - intros H. exists x. split; [assumption | apply String.eqb_refl].
Qed.

Lemma mem_false (x : string) (l : list string) : mem x l = false <-> ~ In x l.
Proof. rewrite <- mem_In. destruct (mem x l); split; congruence. Qed.

Lemma starts_with_spec (p s : string) :
  starts_with p s = true <-> exists rest, s = (p ++ rest)%string.
Proof.
  revert s. induction p as [|a p IH]; intros s; cbn [starts_with].
  - split; [intros _; now exists s | reflexivity].
  - destruct s as [|b s].
    + split; [discriminate | intros (rest & H); discriminate].
    + rewrite andb_true_iff, Ascii.eqb_eq, IH. split.
      * intros [-> (rest & ->)]. now exists rest.
      * intros (rest & H). cbn in H. injection H as -> ->. split; [reflexivity | now exists rest].
Qed.

(** [contains needle s] holds exactly when [needle] occurs in [s]. *)
Lemma contains_spec (needle s : string) :
  contains needle s = true <->
  exists before after, s = (before ++ needle ++ after)%string.
Proof.
  induction s as [|c s IH]; cbn [contains]; rewrite orb_true_iff, starts_with_spec.
  - split.
    + intros [(rest & H)|H]; [|discriminate]. now exists EmptyString, rest.
    + intros ([|b before] & after & H); [left; now exists after | discriminate].
  - rewrite IH. split.
    + intros [(rest & H)|(before & after & ->)].
      * now exists EmptyString, rest.
      * now exists (String c before), after.
    + intros ([|b before] & after & H).
      * left. now exists after.
      * right. cbn in H. injection H as _ ->. now exists before, after.
Qed.

(** The first match of a [for ... if ...: return] loop. *)
Lemma find_first {A : Type} (f : A -> bool) (l : list A) (x : A) :
  find f l = Some x ->
  exists before after,
    l = before ++ x :: after /\ f x = true /\ Forall (fun y => f y = false) before.
Proof.
  induction l as [|y l IH]; cbn [find]; [discriminate|].
  destruct (f y) eqn:Hy.
  - intros [= ->]. exists [], l. repeat split; [assumption | constructor].
  - intros H. destruct (IH H) as (before & after & -> & Hx & Hb).
    exists (y :: before), after. repeat split; [assumption | now constructor].
Qed.

Lemma find_none_Forall {A : Type} (f : A -> bool) (l : list A) :
  find f l = None -> Forall (fun y => f y = false) l.
Proof.
  intros H. apply Forall_forall. intros y Hy. exact (find_none f l H y Hy).
Qed.

Lemma choose_model_None (available : list string) :
  choose_model available = None <-> available = [].
Proof.
  destruct available as [|first rest]; [tauto|].
  unfold choose_model. split; [|discriminate].
  destruct (find _ preferred); [discriminate|].
  destruct (find (fun m => contains "llama" (lower m)) (first :: rest)); [discriminate|].
  destruct (find _ (first :: rest)); discriminate.
Qed.

Lemma choose_model_In (available : list string) (m : string) :
  choose_model available = Some m -> In m available.
Proof.
  destruct available as [|first rest]; [discriminate|].
  unfold choose_model.
  destruct (find _ preferred) as [p|] eqn:Hp.
  { intros [= <-]. apply find_some in Hp as [_ Hp]. now apply mem_In. }
  destruct (find (fun m => contains "llama" (lower m)) (first :: rest)) as [l|] eqn:Hl.
  { intros [= <-]. now apply find_some in Hl as [Hl _]. }
  destruct (find (fun m => contains "mixtral" (lower m)) (first :: rest))
    as [x|] eqn:Hx.
  { intros [= <-]. now apply find_some in Hx as [Hx _]. }
  intros [= <-]. now left.
Qed.

(** [choose_model] has nothing to offer exactly on the empty list, and
    what it offers is one of the models it was given. *)
Theorem choose_model_member (available : list string) :
  (choose_model available = None <-> available = []) /\
  (forall m, choose_model available = Some m -> In m available).
Proof.
  split.
  - apply choose_model_None.
  - intros m. apply choose_model_In.
Qed.

Lemma choose_model_member_witness :
  choose_model ["whisper-large-v3"; "gemma2-9b-it"; "llama-guard-3-8b"]
    = Some "llama-guard-3-8b" /\
  In "llama-guard-3-8b" ["whisper-large-v3"; "gemma2-9b-it"; "llama-guard-3-8b"].
Proof.
  split; [vm_compute; reflexivity|].
  apply (proj2 (choose_model_member
                  ["whisper-large-v3"; "gemma2-9b-it"; "llama-guard-3-8b"])).
  vm_compute. reflexivity.
Defined.

(** When one of the preferred models is available, [choose_model] returns
    the first entry of the preference list that is, whatever the order of
    the models it was given. *)
Theorem choose_model_prefers (available : list string) (p : string) :
  In p preferred -> In p available ->
  exists m before after,
    choose_model available = Some m /\
    preferred = before ++ m :: after /\
    In m available /\
    Forall (fun q => ~ In q available) before.
Proof.
  intros Hp Ha.
  destruct available as [|first rest]; [destruct Ha|].
  unfold choose_model.
  destruct (find (fun m => mem m (first :: rest)) preferred) as [m|] eqn:Hf.
  - destruct (find_first _ _ _ Hf) as (before & after & Hsplit & Hm & Hb).
    exists m, before, after. split; [reflexivity|]. split; [assumption|].
    split; [now apply mem_In|].
    eapply Forall_impl; [|exact Hb]. intros q Hq. now apply mem_false.
  - exfalso. pose proof (find_none _ _ Hf p Hp) as H.
    apply mem_false in H. contradiction.
Qed.

Lemma choose_model_prefers_witness :
  exists m before after,
    choose_model ["mixtral-8x7b"; "llama-3.1-8b-instant"; "llama3-8b-8192"] = Some m /\
    preferred = before ++ m :: after /\
    In m ["mixtral-8x7b"; "llama-3.1-8b-instant"; "llama3-8b-8192"] /\
    Forall (fun q => ~ In q ["mixtral-8x7b"; "llama-3.1-8b-instant"; "llama3-8b-8192"])
      before.
Proof.
  apply (choose_model_prefers
           ["mixtral-8x7b"; "llama-3.1-8b-instant"; "llama3-8b-8192"] "mixtral-8x7b").
  - unfold preferred. repeat (first [now left | right]).
  - now left.
Defined.

(** When none of the preferred models is available, [choose_model] returns
    the first available model whose lower-cased name contains "llama"; if
    there is none, the first whose lower-cased name contains "mixtral"; if
    there is none either, the first available model. *)
Theorem choose_model_fallback (available : list string) (m : string) :
  (forall p, In p preferred -> ~ In p available) ->
  choose_model available = Some m ->
  exists before after,
    available = before ++ m :: after /\
    ((contains "llama" (lower m) = true /\
      Forall (fun x => contains "llama" (lower x) = false) before) \/
     (Forall (fun x => contains "llama" (lower x) = false) available /\
      contains "mixtral" (lower m) = true /\
      Forall (fun x => contains "mixtral" (lower x) = false) before) \/
     (Forall (fun x => contains "llama" (lower x) = false) available /\
      Forall (fun x => contains "mixtral" (lower x) = false) available /\
      before = [])).
Proof.
  intros Hnone. destruct available as [|first rest]; [discriminate|].
  unfold choose_model.
  destruct (find (fun m => mem m (first :: rest)) preferred) as [p|] eqn:Hp.
  { apply find_some in Hp as [Hp Hin]. apply mem_In in Hin.
    exfalso. exact (Hnone p Hp Hin). }
  destruct (find (fun m => contains "llama" (lower m)) (first :: rest)) as [l|] eqn:Hl.
  { intros [= <-]. destruct (find_first _ _ _ Hl) as (before & after & Hsplit & Hm & Hb).
    exists before, after. split; [assumption|]. left. now split. }
  apply find_none_Forall in Hl.
  destruct (find (fun m => contains "mixtral" (lower m)) (first :: rest)) as [x|] eqn:Hx.
  { intros [= <-]. destruct (find_first _ _ _ Hx) as (before & after & Hsplit & Hm & Hb).
    exists before, after. split; [assumption|]. right. left. now repeat split. }
  apply find_none_Forall in Hx.
  intros [= <-]. exists [], rest. split; [reflexivity|]. right. right. now repeat split.
Qed.

Lemma choose_model_fallback_witness :
  exists before after,
    ["gemma2-9b-it"; "Mixtral-8x22B"; "Meta-Llama-Guard"]
      = before ++ "Meta-Llama-Guard" :: after /\
    ((contains "llama" (lower "Meta-Llama-Guard") = true /\
      Forall (fun x => contains "llama" (lower x) = false) before) \/
     (Forall (fun x => contains "llama" (lower x) = false)
        ["gemma2-9b-it"; "Mixtral-8x22B"; "Meta-Llama-Guard"] /\
      contains "mixtral" (lower "Meta-Llama-Guard") = true /\
      Forall (fun x => contains "mixtral" (lower x) = false) before) \/
     (Forall (fun x => contains "llama" (lower x) = false)
        ["gemma2-9b-it"; "Mixtral-8x22B"; "Meta-Llama-Guard"] /\
      Forall (fun x => contains "mixtral" (lower x) = false)
        ["gemma2-9b-it"; "Mixtral-8x22B"; "Meta-Llama-Guard"] /\
      before = [])).
Proof.
  apply (choose_model_fallback ["gemma2-9b-it"; "Mixtral-8x22B"; "Meta-Llama-Guard"]
           "Meta-Llama-Guard").
  - intros p Hp Hin. unfold preferred in Hp. cbn [In] in Hp, Hin.
    repeat (destruct Hp as [<-|Hp];
            [repeat (destruct Hin as [Hin|Hin]; [discriminate Hin|]); exact Hin|]).
    exact Hp.
  - vm_compute. reflexivity.
Defined.

(** * [app.py]: the retry loop of [ai_reply] *)

Lemma filter_length_lt {A : Type} (f g : A -> bool) (l : list A) (x : A) :
  (forall y, g y = true -> f y = true) ->
  In x l -> f x = true -> g x = false ->
  (List.length (filter g l) < List.length (filter f l))%nat.
Proof.
  intros Hgf. induction l as [|y l IH]; intros Hin Hfx Hgx; [destruct Hin|].
  assert (Hle : (List.length (filter g l) <= List.length (filter f l))%nat).
  { clear -Hgf. induction l as [|z l IH]; cbn [filter]; [lia|].
    destruct (g z) eqn:Hg; [rewrite (Hgf z Hg); cbn [List.length]; lia|].
    destruct (f z); cbn [List.length]; lia. }
  cbn [filter]. destruct Hin as [->|Hin].
  - rewrite Hfx, Hgx. cbn [List.length]. lia.
  - specialize (IH Hin Hfx Hgx).
    destruct (g y) eqn:Hg; [rewrite (Hgf y Hg); cbn [List.length]; lia|].
    destruct (f y); cbn [List.length]; lia.
Qed.

Section AiReplyFacts.

Variable has_client : bool.
Variable fetch : option (list string).
Variable create : nat -> string -> api_result.
Variable strip : string -> string.

(** The models not tried yet, among those listed. *)
Let untried (tried : list string) : list string :=
  filter (fun m => negb (mem m tried)) (list_models has_client fetch).

(** Lines 85-100, when the models offered are the listed ones. *)
Let except_groq (fuel : nat) (model : string) (tried made : list string)
    (msg : string) (stored' : option string) : option ai_outcome :=
  if model_gone msg then
    match untried (model :: tried) with
    | [] => Some (mkOutcome (all_failed model) stored' (made ++ [model]))
    | c :: cs =>
        match choose_model (c :: cs) with
        | Some m =>
            retry has_client fetch create strip fuel (list_models has_client fetch)
              m (model :: tried) (made ++ [model]) stored'
        | None => None
        end
    end
  else Some (mkOutcome (ai_error msg) stored' (made ++ [model])).

(** One iteration, when the models offered are the listed ones. *)
Lemma retry_step (fuel : nat) (model : string) (tried made : list string)
    (stored : option string) :
  retry has_client fetch create strip (S fuel) (list_models has_client fetch)
    model tried made stored =
  match create (List.length made) model with
  | Completed content =>
      Some (mkOutcome (strip (match content with Some s => s | None => "" end))
              (Some model) (made ++ [model]))
  | BadResponse msg => Some (mkOutcome (ai_error msg) (Some model) (made ++ [model]))
  | ReadGroqError msg => except_groq fuel model tried made msg (Some model)
  | GroqError msg => except_groq fuel model tried made msg stored
  | OtherException msg => Some (mkOutcome (ai_error msg) stored (made ++ [model]))
  end.
Proof.
  cbn [retry]. destruct (create _ model); try reflexivity;
    unfold except_groq, untried;
    (destruct (model_gone msg); [|reflexivity]);
    destruct (filter _ (list_models has_client fetch)) as [|c cs]; reflexivity.
Qed.

Lemma untried_spec (tried : list string) (m : string) :
  In m (untried tried) <-> In m (list_models has_client fetch) /\ ~ In m tried.
Proof.
  unfold untried. rewrite filter_In, negb_true_iff, mem_false. tauto.
Qed.

Lemma untried_shrinks (tried : list string) (m : string) :
  In m (untried tried) ->
  (List.length (untried (m :: tried)) < List.length (untried tried))%nat.
Proof.
  intros Hm. unfold untried in *. apply filter_In in Hm as [Hin Hm].
  apply (filter_length_lt _ _ _ m); try assumption.
  - intros y Hy. rewrite negb_true_iff in *. apply mem_false. apply mem_false in Hy.
    intros Hc. apply Hy. now right.
  - rewrite negb_false_iff. apply mem_In. now left.
Qed.

Lemma retry_terminates (fuel : nat) :
  forall model tried made stored,
  (List.length (untried (model :: tried)) < fuel)%nat ->
  exists out,
    retry has_client fetch create strip fuel (list_models has_client fetch)
      model tried made stored = Some out /\
    (List.length (calls out)
     <= List.length made + S (List.length (untried (model :: tried))))%nat.
Proof.
  induction fuel as [|fuel IH]; intros model tried made stored Hlt; [lia|].
  assert (Hnow : forall r s',
            exists out, Some (mkOutcome r s' (made ++ [model])) = Some out /\
              (List.length (calls out)
               <= List.length made + S (List.length (untried (model :: tried))))%nat).
  { intros r s'. eexists; split; [reflexivity|]. cbn [calls]. rewrite length_app.
    cbn [List.length]. lia. }
  assert (Hgroq : forall msg stored',
            exists out, except_groq fuel model tried made msg stored' = Some out /\
              (List.length (calls out)
               <= List.length made + S (List.length (untried (model :: tried))))%nat).
  { intros msg stored'. unfold except_groq.
    destruct (model_gone msg); [|apply Hnow].
    destruct (untried (model :: tried)) as [|c cs] eqn:Hu; [apply Hnow|].
    destruct (choose_model (c :: cs)) as [m|] eqn:Hm.
    - pose proof (choose_model_In (c :: cs) m Hm) as Hin.
      rewrite <- Hu in Hin. pose proof (untried_shrinks _ _ Hin) as Hsh.
      rewrite Hu in Hsh.
      destruct (IH m (model :: tried) (made ++ [model]) stored') as (out & Hout & Hlen);
        [cbn [List.length] in Hlt, Hsh; lia|].
      exists out. split; [exact Hout|].
      rewrite length_app in Hlen. cbn [List.length] in Hlen, Hsh |- *. lia.
    - apply choose_model_None in Hm. discriminate. }
  rewrite retry_step.
  destruct (create _ model) as [content|msg|msg|msg|msg];
    first [apply Hnow | apply Hgroq].
Qed.

Lemma retry_trace (fuel : nat) :
  forall model tried made stored out,
  retry has_client fetch create strip fuel (list_models has_client fetch)
    model tried made stored = Some out ->
  exists later,
    calls out = made ++ model :: later /\
    run_explained create strip stored (List.length made) (model :: later) out.
Proof.
  induction fuel as [|fuel IH]; intros model tried made stored out H; [discriminate|].
  assert (Hgroq : forall msg stored',
            except_groq fuel model tried made msg stored' = Some out ->
            (model_gone msg = false \/ untried (model :: tried) = [] ->
             calls out = made ++ [model] /\ session out = stored' /\
             reply out = (if model_gone msg then all_failed model else ai_error msg)) /\
            (model_gone msg = true -> untried (model :: tried) <> [] ->
             exists m later,
               calls out = (made ++ [model]) ++ m :: later /\
               run_explained create strip stored' (S (List.length made))
                 (m :: later) out)).
  { intros msg stored' Hx. unfold except_groq in Hx.
    destruct (model_gone msg) eqn:Hg.
    - destruct (untried (model :: tried)) as [|c cs] eqn:Hu.
      + injection Hx as <-. split; [now intros _|congruence].
      + split; [intros [|]; discriminate|]. intros _ _.
        destruct (choose_model (c :: cs)) as [m|]; [|discriminate].
        apply IH in Hx as (later & Hcalls & Hrun).
        rewrite length_app, Nat.add_1_r in Hrun. now exists m, later.
    - injection Hx as <-. split; [now intros _|discriminate]. }
  rewrite retry_step in H.
  destruct (create (List.length made) model) as [content|msg|msg|msg|msg] eqn:Hc.
  - injection H as <-. exists []. split; [reflexivity|].
    cbn [run_explained]. unfold concluded. rewrite Hc. now split.
  - injection H as <-. exists []. split; [reflexivity|].
    cbn [run_explained]. unfold concluded. rewrite Hc. now split.
  - destruct (Hgroq _ _ H) as [Hend Hnext].
    destruct (model_gone msg) eqn:Hg;
      [destruct (untried (model :: tried)) as [|c cs] eqn:Hu|].
    + destruct Hend as (Hcalls & Hs & Hr); [now right|].
      exists []. split; [assumption|].
      cbn [run_explained]. unfold concluded. rewrite Hc, Hg. now split.
    + destruct Hnext as (m & later & Hcalls & Hrun); [reflexivity | discriminate|].
      exists (m :: later). split; [now rewrite Hcalls, <- app_assoc|].
      cbn [run_explained]. exists (Some model). split; [|exact Hrun].
      exists msg. split; [assumption|]. right. now split.
    + destruct Hend as (Hcalls & Hs & Hr); [now left|].
      exists []. split; [assumption|].
      cbn [run_explained]. unfold concluded. rewrite Hc, Hg. now split.
  - destruct (Hgroq _ _ H) as [Hend Hnext].
    destruct (model_gone msg) eqn:Hg;
      [destruct (untried (model :: tried)) as [|c cs] eqn:Hu|].
    + destruct Hend as (Hcalls & Hs & Hr); [now right|].
      exists []. split; [assumption|].
      cbn [run_explained]. unfold concluded. rewrite Hc, Hg. now split.
    + destruct Hnext as (m & later & Hcalls & Hrun); [reflexivity | discriminate|].
      exists (m :: later). split; [now rewrite Hcalls, <- app_assoc|].
      cbn [run_explained]. exists stored. split; [|exact Hrun].
      exists msg. split; [assumption|]. left. now split.
    + destruct Hend as (Hcalls & Hs & Hr); [now left|].
      exists []. split; [assumption|].
      cbn [run_explained]. unfold concluded. rewrite Hc, Hg. now split.
  - injection H as <-. exists []. split; [reflexivity|].
    cbn [run_explained]. unfold concluded. rewrite Hc. now split.
Qed.

Lemma retry_fresh (fuel : nat) :
  forall model made stored out,
  retry has_client fetch create strip fuel (list_models has_client fetch)
    model (rev made) made stored = Some out ->
  NoDup made -> ~ In model made ->
  NoDup (calls out) /\
  (forall x, In x (calls out) ->
             In x made \/ x = model \/ In x (list_models has_client fetch)).
Proof.
  induction fuel as [|fuel IH]; intros model made stored out H Hnd Hnew; [discriminate|].
  assert (Hnd' : NoDup (made ++ [model])).
  { apply NoDup_app; [assumption | repeat constructor; intros [] |].
    intros x Hx [<-|[]]. contradiction. }
  assert (Hin' : forall x, In x (made ++ [model]) -> In x made \/ x = model \/
                           In x (list_models has_client fetch)).
  { intros x Hx. apply in_app_or in Hx as [Hx|[<-|[]]]; auto. }
  assert (Hgroq : forall msg stored',
            except_groq fuel model (rev made) made msg stored' = Some out ->
            NoDup (calls out) /\
            (forall x, In x (calls out) ->
                       In x made \/ x = model \/ In x (list_models has_client fetch))).
  { intros msg stored' Hx. unfold except_groq in Hx.
    destruct (model_gone msg); [|injection Hx as <-; now split].
    destruct (untried (model :: rev made)) as [|c cs] eqn:Hu;
      [injection Hx as <-; now split|].
    destruct (choose_model (c :: cs)) as [m|] eqn:Hm; [|discriminate].
    pose proof (choose_model_In (c :: cs) m Hm) as Hin.
    rewrite <- Hu in Hin. apply untried_spec in Hin as [Hlisted Hnot].
    replace (model :: rev made) with (rev (made ++ [model])) in Hx
      by (rewrite rev_app_distr; reflexivity).
    apply IH in Hx as [Hnd'' Hsub]; [|assumption|].
    - split; [assumption|]. intros x Hx'.
      destruct (Hsub x Hx') as [Hx''|[->|Hx'']]; auto.
    - intros Hc. apply Hnot. apply in_app_or in Hc as [Hc|[<-|[]]].
      + right. now apply in_rev in Hc.
      + now left. }
  rewrite retry_step in H.
  destruct (create (List.length made) model) as [content|msg|msg|msg|msg];
    first [injection H as <-; now split | exact (Hgroq _ _ H)].
Qed.


End AiReplyFacts.

Lemma retry_more_fuel (has_client : bool) (fetch : option (list string))
    (create : nat -> string -> api_result) (strip : string -> string)
    (fuel : nat) :
  forall available model tried made stored out,
  retry has_client fetch create strip fuel available model tried made stored = Some out ->
  forall fuel', (fuel <= fuel')%nat ->
  retry has_client fetch create strip fuel' available model tried made stored = Some out.
Proof.
  induction fuel as [|fuel IH]; intros available model tried made stored out H fuel' Hle;
    [discriminate|].
  destruct fuel' as [|fuel']; [lia|].
  cbn [retry] in H |- *.
  destruct (create _ model) as [content|msg|msg|msg|msg]; try exact H;
    (destruct (model_gone msg); [|exact H]);
    (destruct (match filter _ available with [] => _ | _ :: _ => _ end) as [|c cs];
     [exact H|]);
    (destruct (choose_model (c :: cs)) as [m|]; [|discriminate]);
    apply (IH _ _ _ _ _ _ H); lia.
Qed.

(** [ai_reply] terminates: its loop runs at most once more than there are
    listed models, and the API is called at most that many times. *)
Theorem ai_reply_terminates (has_client : bool) (fetch : option (list string))
    (create : nat -> string -> api_result) (strip : string -> string)
    (stored : option string) :
  exists out,
    (forall fuel,
       (List.length (list_models has_client fetch) < fuel)%nat ->
       ai_reply has_client fetch create strip fuel stored = Some out) /\
    (List.length (calls out) <= S (List.length (list_models has_client fetch)))%nat.
Proof.
  unfold ai_reply. destruct has_client eqn:Hc; cbn [negb].
  - destruct (or_else stored (choose_model (list_models true fetch)))
      as [[|c rest]|] eqn:Hm;
      try (eexists; split; [intros fuel _; reflexivity | cbn; lia]).
    destruct (retry_terminates true fetch create strip
                (S (List.length (list_models true fetch))) (String c rest) [] [] stored)
      as (out & Hout & Hlen).
    { apply Nat.lt_succ_r, filter_length_le. }
    exists out. split.
    + intros fuel Hfuel. eapply retry_more_fuel; [exact Hout | lia].
    + cbn [List.length] in Hlen.
      pose proof (filter_length_le (fun m => negb (mem m [String c rest]))
                    (list_models true fetch)). lia.
  - eexists; split; [intros fuel _; reflexivity | cbn; lia].
Qed.

Lemma ai_reply_terminates_witness :
  exists out,
    (forall fuel,
       (3 < fuel)%nat ->
       ai_reply true (Some ["llama3-8b-8192"; "gemma2-9b-it"; "llama-3.1-8b-instant"])
         (sample_create ["llama3-8b-8192"] "Plan your day.") sample_strip fuel None
       = Some out) /\
    (List.length (calls out) <= 4)%nat.
Proof.
  apply (ai_reply_terminates true
           (Some ["llama3-8b-8192"; "gemma2-9b-it"; "llama-3.1-8b-instant"])
           (sample_create ["llama3-8b-8192"] "Plan your day.") sample_strip None).
Defined.

(** [ai_reply] never asks the API for the same model twice; without a
    client it makes no call at all; the first model asked for is the one
    remembered in the session, or else the choice among the listed models,
    and every later one is a listed model. *)
Theorem ai_reply_calls_distinct (has_client : bool) (fetch : option (list string))
    (create : nat -> string -> api_result) (strip : string -> string)
    (fuel : nat) (stored : option string) (out : ai_outcome) :
  ai_reply has_client fetch create strip fuel stored = Some out ->
  NoDup (calls out) /\
  (has_client = false -> calls out = []) /\
  (forall first rest,
     calls out = first :: rest ->
     or_else stored (choose_model (list_models has_client fetch)) = Some first /\
     Forall (fun m => In m (list_models has_client fetch)) rest).
Proof.
  unfold ai_reply. destruct has_client; cbn [negb].
  - destruct (or_else stored (choose_model (list_models true fetch)))
      as [[|c rest]|] eqn:Hm.
    + intros [= <-]. cbn [calls]. split; [constructor|]. split; [reflexivity | discriminate].
    + intros H.
      destruct (retry_trace _ _ _ _ _ _ _ _ _ _ H) as (later & Hcalls & _).
      apply (retry_fresh true fetch create strip fuel (String c rest) []) in H
        as [Hnd Hsub]; [|constructor|intros []].
      split; [assumption|]. split; [discriminate|].
      intros first rest' Heq. cbn [app] in Hcalls. rewrite Hcalls in Heq.
      injection Heq as <- <-. split; [reflexivity|].
      apply Forall_forall. intros x Hx.
      destruct (Hsub x) as [[]|[->|Hl]]; [rewrite Hcalls; now right| |assumption].
      rewrite Hcalls in Hnd. apply NoDup_cons_iff in Hnd as [Hnd _]. contradiction.
    + intros [= <-]. cbn [calls]. split; [constructor|]. split; [reflexivity | discriminate].
  - intros [= <-]. cbn [calls]. split; [constructor|]. split; [reflexivity | discriminate].
Qed.

Lemma ai_reply_calls_distinct_witness :
  exists out,
    ai_reply true (Some ["llama3-8b-8192"; "gemma2-9b-it"; "llama-3.1-8b-instant"])
      (sample_create ["llama3-70b-8192"; "llama3-8b-8192"] "Plan your day.")
      sample_strip 4 (Some "llama3-70b-8192") = Some out /\
    calls out = ["llama3-70b-8192"; "llama3-8b-8192"; "llama-3.1-8b-instant"] /\
    NoDup (calls out).
Proof.
  eexists. split; [vm_compute; reflexivity|]. split; [reflexivity|].
  apply (ai_reply_calls_distinct true
           (Some ["llama3-8b-8192"; "gemma2-9b-it"; "llama-3.1-8b-instant"])
           (sample_create ["llama3-70b-8192"; "llama3-8b-8192"] "Plan your day.")
           sample_strip 4 (Some "llama3-70b-8192")).
  vm_compute. reflexivity.
Defined.

Lemma ai_reply_run (has_client : bool) (fetch : option (list string))
    (create : nat -> string -> api_result) (strip : string -> string)
    (fuel : nat) (stored : option string) (out : ai_outcome) :
  ai_reply has_client fetch create strip fuel stored = Some out ->
  (calls out = [] /\ session out = stored /\
   reply out = if has_client then AI_UNAVAILABLE else AI_DISABLED) \/
  exists first later,
    calls out = first :: later /\
    run_explained create strip stored 0 (first :: later) out.
Proof.
  unfold ai_reply. destruct has_client; cbn [negb].
  - destruct (or_else stored (choose_model (list_models true fetch))) as [[|c rest]|].
    + intros [= <-]. left. now repeat split.
    + intros H. right.
      apply retry_trace in H as (later & Hcalls & Hrun).
      now exists (String c rest), later.
    + intros [= <-]. left. now repeat split.
  - intros [= <-]. left. now repeat split.
Qed.


(** A run of [ai_reply] that calls the API: every call but the last ended
    in a [GroqError] about a model that is gone, raised by [create] or
    while the response was read, and in the second case the model was
    already stored in the session.  The last call decides the reply: a
    response gives the stripped content and stores the model; an exception
    raised while the response is read gives an error text, the model being
    stored; an exception raised by [create] gives an error text and leaves
    the session as the earlier calls left it.  A run without calls changes
    nothing and answers with the fixed text for a missing client or for a
    missing model. *)
Theorem ai_reply_explained (has_client : bool) (fetch : option (list string))
    (create : nat -> string -> api_result) (strip : string -> string)
    (fuel : nat) (stored : option string) (out : ai_outcome) :
  ai_reply has_client fetch create strip fuel stored = Some out ->
  (calls out = [] /\ session out = stored /\
   reply out = if has_client then AI_UNAVAILABLE else AI_DISABLED) \/
  run_explained create strip stored 0 (calls out) out.
Proof.
  intros H. destruct (ai_reply_run _ _ _ _ _ _ _ H) as [Hnone|(first & later & Hc & Hrun)].
  - now left.
  - right. now rewrite Hc.
Qed.

Lemma ai_reply_explained_witness :
  exists out,
    ai_reply true (Some ["llama3-8b-8192"; "gemma2-9b-it"; "llama-3.1-8b-instant"])
      (sample_create_reading ["llama3-70b-8192"; "llama3-8b-8192"] "Plan your day.")
      sample_strip 4 (Some "llama3-70b-8192") = Some out /\
    calls out = ["llama3-70b-8192"; "llama3-8b-8192"; "llama-3.1-8b-instant"] /\
    run_explained
      (sample_create_reading ["llama3-70b-8192"; "llama3-8b-8192"] "Plan your day.")
      sample_strip (Some "llama3-70b-8192") 0 (calls out) out /\
    session out = Some "llama-3.1-8b-instant".
Proof.
  eexists. split; [vm_compute; reflexivity|]. split; [reflexivity|].
  split; [|reflexivity].
  destruct (ai_reply_explained true
              (Some ["llama3-8b-8192"; "gemma2-9b-it"; "llama-3.1-8b-instant"])
              (sample_create_reading ["llama3-70b-8192"; "llama3-8b-8192"]
                 "Plan your day.")
              sample_strip 4 (Some "llama3-70b-8192") _ eq_refl) as [[H _]|H].
  - discriminate H.
  - exact H.
Defined.



(** * The page: tips *)

Lemma ai_tip_rows_app (a b : list Block.t) :
  ai_tip_rows (format_blocks (a ++ b)) =
  ai_tip_rows (format_blocks a) ++ ai_tip_rows (format_blocks b).
Proof. unfold ai_tip_rows, format_blocks. now rewrite map_app, filter_app. Qed.

Lemma fixed_tip_name (b : Block.t) (s : string) :
  Block.name b = s ->
  fixed_tip (format_block b) = contains "Break" s || contains "Buffer" s.
Proof. intros <-. reflexivity. Qed.

Lemma accounts_ai_tip_rows (break_len : Z) (tasks : list Task.t) (body : list Block.t) :
  accounts break_len tasks body ->
  (List.length (ai_tip_rows (format_blocks body)) <= List.length tasks)%nat.
Proof.
  induction 1 as [|t rest br tk bs Hbr Htk Hacc IH]; [cbn; lia|].
  rewrite !ai_tip_rows_app, !length_app. cbn [List.length].
  assert (List.length (ai_tip_rows (format_blocks br)) = 0)%nat as ->.
  { destruct Hbr as [->|(b & -> & Hb & _)]; [reflexivity|].
    unfold ai_tip_rows, format_blocks. cbn [map filter].
    now rewrite (fixed_tip_name b SHORT_BREAK Hb). }
  assert (List.length (ai_tip_rows (format_blocks tk)) <= 1)%nat.
  { destruct Htk as [->|(b & -> & _)]; [cbn; lia|].
    unfold ai_tip_rows, format_blocks. cbn [map filter].
    destruct (negb _); cbn; lia. }
  lia.
Qed.

(** For the rows of a plan, the page calls [ai_reply] for a tip at most
    once per task: breaks and the trailing buffer get the fixed tip. *)
Theorem ai_tips_at_most_one_per_task {E : Type} (parse : string -> E + datetime)
    (wake_time sleep_time : string) (tasks : list Task.t)
    (break_every break_len : Z) (blocks : list Block.t) :
  plan_day parse wake_time sleep_time tasks break_every break_len = inr blocks ->
  (List.length (ai_tip_rows (format_blocks blocks)) <= List.length tasks)%nat.
Proof.
  intros H. apply plan_day_accounts in H as (body & buffer & -> & Hacc & Hbuf).
  rewrite ai_tip_rows_app, length_app.
  apply accounts_ai_tip_rows in Hacc.
  rewrite <- (Permutation_length (sorted_perm tasks)) in Hacc.
  assert (List.length (ai_tip_rows (format_blocks buffer)) = 0)%nat as ->; [|lia].
  destruct Hbuf as [->|(b & -> & Hb)]; [reflexivity|].
  unfold ai_tip_rows, format_blocks. cbn [map filter].
  now rewrite (fixed_tip_name b FREE_TIME Hb).
Qed.

Lemma ai_tips_at_most_one_per_task_witness :
  exists blocks,
    plan_day sample_parse "06:30 AM" "10:30 PM"
      [Task.mk "Email" 30 2; Task.mk "Breakfast" 60 5] 60 5 = inr blocks /\
    List.length blocks = 4%nat /\
    (List.length (ai_tip_rows (format_blocks blocks)) <= 2)%nat.
Proof.
  eexists. split; [vm_compute; reflexivity|]. split; [reflexivity|].
  apply (ai_tips_at_most_one_per_task sample_parse "06:30 AM" "10:30 PM"
           [Task.mk "Email" 30 2; Task.mk "Breakfast" 60 5] 60 5).
  vm_compute. reflexivity.
Defined.

(** * More on [plan_day] *)

Lemma accounts_length (break_len : Z) (tasks : list Task.t) (body : list Block.t) :
  accounts break_len tasks body ->
  (List.length body <= 2 * List.length tasks)%nat.
Proof.
  induction 1 as [|t rest br tk bs Hbr Htk Hacc IH]; [cbn; lia|].
  rewrite !length_app. cbn [List.length].
  assert (List.length br <= 1)%nat
    by (destruct Hbr as [->|(b & -> & _)]; cbn; lia).
  assert (List.length tk <= 1)%nat
    by (destruct Htk as [->|(b & -> & _)]; cbn; lia).
  lia.
Qed.

(** A plan for [n] tasks has at most [2 n + 1] blocks. *)
Theorem plan_day_block_count {E : Type} (parse : string -> E + datetime)
    (wake_time sleep_time : string) (tasks : list Task.t)
    (break_every break_len : Z) (blocks : list Block.t) :
  plan_day parse wake_time sleep_time tasks break_every break_len = inr blocks ->
  (List.length blocks <= 2 * List.length tasks + 1)%nat.
Proof.
  intros H. apply plan_day_accounts in H as (body & buffer & -> & Hacc & Hbuf).
  apply accounts_length in Hacc.
  rewrite <- (Permutation_length (sorted_perm tasks)) in Hacc.
  rewrite length_app.
  assert (List.length buffer <= 1)%nat
    by (destruct Hbuf as [->|(b & -> & _)]; cbn; lia).
  lia.
Qed.

Lemma plan_day_block_count_witness :
  exists blocks,
    plan_day sample_parse "06:30 AM" "10:30 PM"
      [Task.mk "Email" 60 2; Task.mk "Write report" 60 5] 0 5 = inr blocks /\
    List.length blocks = 5%nat /\
    (List.length blocks <= 2 * 2 + 1)%nat.
Proof.
  eexists. split; [vm_compute; reflexivity|]. split; [reflexivity|].
  apply (plan_day_block_count sample_parse "06:30 AM" "10:30 PM"
           [Task.mk "Email" 60 2; Task.mk "Write report" 60 5] 0 5).
  vm_compute. reflexivity.
Defined.

Lemma total_minutes_cons (t : Task.t) (l : list Task.t) :
  total_minutes (t :: l) = Task.duration t + total_minutes l.
Proof. reflexivity. Qed.

Lemma total_minutes_nonneg (tasks : list Task.t) :
  Forall (fun t => 0 <= Task.duration t) tasks -> 0 <= total_minutes tasks.
Proof. induction 1; rewrite ?total_minutes_cons; [reflexivity | lia]. Qed.

Lemma total_minutes_perm (l l' : list Task.t) :
  Permutation l l' -> total_minutes l = total_minutes l'.
Proof. induction 1; rewrite ?total_minutes_cons; lia. Qed.

Lemma run_tasks_all_placed {E : Type} (end_ break_every break_len : Z)
    (tasks : list Task.t) :
  0 <= break_len ->
  Forall (fun t => 0 <= Task.duration t) tasks ->
  forall st st' : state,
  @run_tasks E end_ break_every break_len tasks st = inr st' ->
  cur st + (total_minutes tasks + Z.of_nat (List.length tasks) * break_len)
           * US_PER_MINUTE <= end_ ->
  exists bs, plan st' = plan st ++ bs /\ accounts_all break_len tasks bs.
Proof.
  intros Hbl Hpos. induction Hpos as [|t rest Ht Hrest IH]; intros st st' H Hfit.
  - injection H as <-. exists []. split; [now rewrite app_nil_r | constructor].
  - cbn [run_tasks] in H.
    apply bind_inr in H as (st1 & H1 & H).
    apply bind_inr in H as (st2 & H2 & H).
    apply take_break_inv in H1. apply place_task_inv in H2.
    pose proof (total_minutes_nonneg rest Hrest) as Htot.
    rewrite total_minutes_cons in Hfit. cbn [List.length] in Hfit.
    rewrite Nat2Z.inj_succ, Z.mul_succ_l in Hfit.
    set (N := Z.of_nat (List.length rest) * break_len) in *.
    assert (0 <= N) by (subst N; apply Z.mul_nonneg_nonneg; lia).
    set (due := (focus st >=? break_every) &&
                (cur st + break_len * US_PER_MINUTE <=? end_)) in H1.
    set (br := if due
               then [Block.mk (cur st) (cur st + break_len * US_PER_MINUTE) SHORT_BREAK]
               else []).
    assert (Hp1 : plan st1 = plan st ++ br /\ cur st1 <= cur st + break_len * US_PER_MINUTE).
    { rewrite H1. subst br. destruct due; cbn [plan cur];
        [split; [reflexivity | lia] | rewrite app_nil_r; split; [reflexivity|]].
      unfold US_PER_MINUTE. lia. }
    destruct Hp1 as [Hp1 Hc1].
    assert (Hfits : (cur st1 + Task.duration t * US_PER_MINUTE <=? end_) = true).
    { apply Z.leb_le. unfold US_PER_MINUTE in *. lia. }
    rewrite Hfits in H2.
    apply IH in H as (bs & Hbs & Hacc).
    + exists (br ++ Block.mk (cur st1) (cur st1 + Task.duration t * US_PER_MINUTE)
                      (Task.name t) :: bs).
      split.
      * rewrite Hbs, H2. cbn [plan]. rewrite Hp1, <- !app_assoc. reflexivity.
      * constructor; [|split; reflexivity|assumption].
        subst br. destruct due; [right|now left].
        eexists; split; [reflexivity | split; reflexivity].
    + rewrite H2. cbn [cur]. unfold US_PER_MINUTE in *. lia.
Qed.

(** If the tasks and one break per task fit into the window together, no
    task is dropped: every task has its block in the plan. *)
Theorem plan_day_places_all_tasks {E : Type} (parse : string -> E + datetime)
    (wake_time sleep_time : string) (tasks : list Task.t)
    (break_every break_len : Z) (s e : datetime) (blocks : list Block.t) :
  day_window parse wake_time sleep_time = inr (s, e) ->
  0 <= break_len ->
  Forall (fun t => 0 <= Task.duration t) tasks ->
  s + (total_minutes tasks + Z.of_nat (List.length tasks) * break_len)
      * US_PER_MINUTE <= e ->
  plan_day parse wake_time sleep_time tasks break_every break_len = inr blocks ->
  exists body buffer,
    blocks = body ++ buffer /\
    accounts_all break_len (sorted tasks) body /\
    (buffer = [] \/ exists b, buffer = [b] /\ Block.name b = FREE_TIME).
Proof.
  intros Hw Hbl Hpos Hfit H. unfold plan_day, schedule in H.
  rewrite Hw in H. cbn [bind fst snd] in H.
  apply bind_inr in H as (st & Hrun & H). injection H as <-.
  apply run_tasks_all_placed in Hrun as (bs & Hbs & Hacc).
  - cbn [plan app] in Hbs. unfold close_plan. rewrite Hbs.
    destruct (cur st <? e).
    + exists bs. eexists. split; [reflexivity|]. split; [assumption|].
      right. eexists. split; reflexivity.
    + exists bs, []. split; [now rewrite app_nil_r|]. split; [assumption | now left].
  - assumption.
  - now apply sorted_Forall.
  - cbn [cur].
    rewrite <- (total_minutes_perm _ _ (sorted_perm tasks)).
    now rewrite <- (Permutation_length (sorted_perm tasks)).
Qed.

Lemma plan_day_places_all_tasks_witness :
  exists body buffer,
    [ Block.mk (mk_datetime 2024 1 1 6 30) (mk_datetime 2024 1 1 7 30) "Write report";
      Block.mk (mk_datetime 2024 1 1 7 30) (mk_datetime 2024 1 1 7 35) SHORT_BREAK;
      Block.mk (mk_datetime 2024 1 1 7 35) (mk_datetime 2024 1 1 8 5) "Email";
      Block.mk (mk_datetime 2024 1 1 8 5) (mk_datetime 2024 1 1 22 30) FREE_TIME ]
      = body ++ buffer /\
    accounts_all 5 (sorted [Task.mk "Email" 30 2; Task.mk "Write report" 60 5]) body /\
    (buffer = [] \/ exists b, buffer = [b] /\ Block.name b = FREE_TIME).
Proof.
  apply (plan_day_places_all_tasks sample_parse "06:30 AM" "10:30 PM"
           [Task.mk "Email" 30 2; Task.mk "Write report" 60 5] 60 5
           (mk_datetime 2024 1 1 6 30) (mk_datetime 2024 1 1 22 30)).
  - vm_compute; reflexivity.
  - vm_compute; discriminate.
  - repeat constructor; vm_compute; discriminate.
  - vm_compute; discriminate.
  - vm_compute; reflexivity.
Defined.

(** With a positive [break_every], a plan opens at the wake time with the
    block of the first task in processing order, a task of the highest
    priority, whenever that task fits into the window. *)
Theorem plan_day_opens_with_top_task {E : Type} (parse : string -> E + datetime)
    (wake_time sleep_time : string) (tasks : list Task.t)
    (break_every break_len : Z) (s e : datetime) (blocks : list Block.t)
    (t : Task.t) (rest : list Task.t) :
  day_window parse wake_time sleep_time = inr (s, e) ->
  0 < break_every ->
  sorted tasks = t :: rest ->
  s + Task.duration t * US_PER_MINUTE <= e ->
  plan_day parse wake_time sleep_time tasks break_every break_len = inr blocks ->
  hd_error blocks
    = Some (Block.mk s (s + Task.duration t * US_PER_MINUTE) (Task.name t)) /\
  (forall u, In u tasks -> Task.priority u <= Task.priority t).
Proof.
  intros Hw Hbe Hsorted Hfit H. split.
  - unfold plan_day, schedule in H. rewrite Hw, Hsorted in H.
    cbn [bind fst snd run_tasks] in H.
    apply bind_inr in H as (st & Hrun & H). injection H as <-.
    apply bind_inr in Hrun as (st1 & H1 & Hrun).
    apply bind_inr in Hrun as (st2 & H2 & Hrun).
    apply take_break_inv in H1. cbn [focus cur plan] in H1.
    replace (0 >=? break_every) with false in H1
      by (symmetry; rewrite Z.geb_leb; apply Z.leb_gt; lia).
    cbn [andb] in H1. subst st1.
    apply place_task_inv in H2. cbn [focus cur plan app] in H2.
    apply Z.leb_le in Hfit. rewrite Hfit in H2. subst st2.
    apply run_tasks_accounts in Hrun as (bs & Hbs & _). cbn [plan] in Hbs.
    unfold close_plan. rewrite Hbs. destruct (cur st <? e); reflexivity.
  - intros u Hu.
    apply (Permutation_in _ (sorted_perm tasks)) in Hu. rewrite Hsorted in Hu.
    destruct Hu as [<-|Hu]; [lia|].
    pose proof (sorted_sorted tasks) as Hs. rewrite Hsorted in Hs.
    apply StronglySorted_inv in Hs as [_ Hs].
    rewrite Forall_forall in Hs. specialize (Hs u Hu). unfold precedes in Hs. lia.
Qed.

Lemma plan_day_opens_with_top_task_witness :
  hd_error
    [ Block.mk (mk_datetime 2024 1 1 6 30) (mk_datetime 2024 1 1 7 30) "Write report";
      Block.mk (mk_datetime 2024 1 1 7 30) (mk_datetime 2024 1 1 7 35) SHORT_BREAK;
      Block.mk (mk_datetime 2024 1 1 7 35) (mk_datetime 2024 1 1 8 5) "Email";
      Block.mk (mk_datetime 2024 1 1 8 5) (mk_datetime 2024 1 1 22 30) FREE_TIME ]
    = Some (Block.mk (mk_datetime 2024 1 1 6 30)
              (mk_datetime 2024 1 1 6 30 + 60 * US_PER_MINUTE) "Write report") /\
  (forall u, In u [Task.mk "Email" 30 2; Task.mk "Write report" 60 5] ->
             Task.priority u <= 5).
Proof.
  apply (plan_day_opens_with_top_task sample_parse "06:30 AM" "10:30 PM"
           [Task.mk "Email" 30 2; Task.mk "Write report" 60 5] 60 5
           (mk_datetime 2024 1 1 6 30) (mk_datetime 2024 1 1 22 30) _
           (Task.mk "Write report" 60 5) [Task.mk "Email" 30 2]).
  - vm_compute; reflexivity.
  - reflexivity.
  - reflexivity.
  - vm_compute; discriminate.
  - vm_compute; reflexivity.
Defined.

Lemma sorted_already (l : list Task.t) : StronglySorted precedes l -> sorted l = l.
Proof.
  induction 1 as [|a l Hl IH Ha]; [reflexivity|].
  cbn [sorted fold_right]. fold (sorted l). rewrite IH.
  destruct l as [|y ys]; [reflexivity|]. cbn [insert_task].
  apply Forall_inv in Ha. apply tuple_lt_false in Ha. now rewrite Ha.
Qed.

Lemma ordered_perm_eq (l1 : list Task.t) :
  forall l2,
  StronglySorted precedes l1 -> StronglySorted precedes l2 ->
  Permutation l1 l2 ->
  (forall x y, In x l1 -> In y l1 ->
               Task.priority x = Task.priority y ->
               Task.duration x = Task.duration y -> x = y) ->
  l1 = l2.
Proof.
  induction l1 as [|a l1 IH]; intros l2 H1 H2 Hp Hinj.
  - now apply Permutation_nil in Hp.
  - destruct l2 as [|b l2]; [symmetry in Hp; now apply Permutation_nil in Hp|].
    apply StronglySorted_inv in H1 as [H1 Ha].
    apply StronglySorted_inv in H2 as [H2 Hb].
    rewrite Forall_forall in Ha, Hb.
    assert (a = b) as <-.
    { assert (Hab : In a (b :: l2)) by (eapply Permutation_in; [exact Hp | now left]).
      assert (Hba : In b (a :: l1))
        by (eapply Permutation_in; [symmetry; exact Hp | now left]).
      destruct Hab as [->|Hab]; [reflexivity|].
      destruct Hba as [->|Hba]; [reflexivity|].
      pose proof (Hb a Hab) as Pba. pose proof (Ha b Hba) as Pab.
      unfold precedes in Pba, Pab.
      apply Hinj; [now left | now right | lia | lia]. }
    f_equal. apply IH; try assumption.
    + now apply Permutation_cons_inv in Hp.
    + intros x y Hx Hy. apply Hinj; now right.
Qed.

(** The order in which the tasks are entered does not matter, as long as
    two tasks of the same priority and duration are the same task: the plan
    for a rearranged list is the same plan. *)
Theorem plan_day_input_order_irrelevant {E : Type} (parse : string -> E + datetime)
    (wake_time sleep_time : string) (tasks tasks' : list Task.t)
    (break_every break_len : Z) :
  Permutation tasks tasks' ->
  (forall x y, In x tasks -> In y tasks ->
               Task.priority x = Task.priority y ->
               Task.duration x = Task.duration y -> x = y) ->
  plan_day parse wake_time sleep_time tasks' break_every break_len =
  plan_day parse wake_time sleep_time tasks break_every break_len.
Proof.
  intros Hp Hinj. unfold plan_day.
  replace (sorted tasks') with (sorted tasks); [reflexivity|].
  apply ordered_perm_eq; try apply sorted_sorted.
  - rewrite <- (sorted_perm tasks), <- (sorted_perm tasks'). exact Hp.
  - intros x y Hx Hy. apply Hinj; eapply Permutation_in; try eassumption;
      symmetry; apply sorted_perm.
Qed.

Lemma plan_day_input_order_irrelevant_witness :
  plan_day sample_parse "06:30 AM" "10:30 PM"
    [Task.mk "Write report" 60 5; Task.mk "Gym" 45 3; Task.mk "Email" 30 2] 60 5 =
  plan_day sample_parse "06:30 AM" "10:30 PM"
    [Task.mk "Email" 30 2; Task.mk "Write report" 60 5; Task.mk "Gym" 45 3] 60 5.
Proof.
  apply plan_day_input_order_irrelevant.
  - apply Permutation_cons_app with (l1 := [Task.mk "Write report" 60 5; Task.mk "Gym" 45 3])
                                    (l2 := []).
    reflexivity.
  - intros x y Hx Hy. cbn [In] in Hx, Hy.
    repeat (destruct Hx as [<-|Hx]);
      repeat (destruct Hy as [<-|Hy]);
      try reflexivity; try contradiction; cbn; intros; discriminate.
Defined.

(** A list that is already in processing order is scheduled as it stands;
    in particular sorting the tasks beforehand changes nothing. *)
Theorem plan_day_presorted {E : Type} (parse : string -> E + datetime)
    (wake_time sleep_time : string) (tasks : list Task.t)
    (break_every break_len : Z) :
  (StronglySorted
     (fun a b => Task.priority a > Task.priority b \/
                 (Task.priority a = Task.priority b /\
                  Task.duration a >= Task.duration b)) tasks ->
   sorted tasks = tasks) /\
  plan_day parse wake_time sleep_time (sorted tasks) break_every break_len =
  plan_day parse wake_time sleep_time tasks break_every break_len.
Proof.
  split.
  - apply sorted_already.
  - unfold plan_day. now rewrite (sorted_already _ (sorted_sorted tasks)).
Qed.

Lemma plan_day_presorted_witness :
  sorted [Task.mk "Write report" 60 5; Task.mk "Gym" 45 3; Task.mk "Walk" 45 3]
  = [Task.mk "Write report" 60 5; Task.mk "Gym" 45 3; Task.mk "Walk" 45 3].
Proof.
  apply (proj1 (plan_day_presorted sample_parse "06:30 AM" "10:30 PM"
                  [Task.mk "Write report" 60 5; Task.mk "Gym" 45 3; Task.mk "Walk" 45 3]
                  60 5)).
  repeat constructor; cbn; lia.
Defined.

(** * More on [format_blocks] *)

Lemma hour_next_day (t k : Z) : hour (t + k * US_PER_DAY) = hour t.
Proof.
  unfold hour, US_PER_DAY, US_PER_HOUR.
  replace (t + k * 86400000000) with (t + (k * 24) * 3600000000) by lia.
  rewrite Z.div_add by lia. now rewrite Z.mod_add by lia.
Qed.

Lemma minute_next_day (t k : Z) : minute (t + k * US_PER_DAY) = minute t.
Proof.
  unfold minute, US_PER_DAY, US_PER_MINUTE.
  replace (t + k * 86400000000) with (t + (k * 1440) * 60000000) by lia.
  rewrite Z.div_add by lia.
  replace (k * 1440) with ((k * 24) * 60) by lia. now rewrite Z.mod_add by lia.
Qed.

(** The rendering shows the time of day only: timestamps a whole number of
    days apart read the same, so a block that lasts exactly one day (the
    buffer of a day without tasks whose wake and sleep times are equal)
    shows the same reading on both sides of the dash. *)
Theorem format_block_hides_the_date (t k : Z) (b : Block.t) :
  strftime_I_M_p (t + k * US_PER_DAY) = strftime_I_M_p t /\
  (Block.end_ b = Block.start b + one_day ->
   Time (format_block b) =
     (strftime_I_M_p (Block.start b) ++ EN_DASH ++ strftime_I_M_p (Block.start b))%string).
Proof.
  assert (H : forall t k, strftime_I_M_p (t + k * US_PER_DAY) = strftime_I_M_p t).
  { intros t0 k0. unfold strftime_I_M_p, hour12, am_pm.
    now rewrite hour_next_day, minute_next_day. }
  split; [apply H|].
  intros He. unfold format_block; cbn [Time]. rewrite He.
  unfold one_day. replace US_PER_DAY with (1 * US_PER_DAY) at 1 by lia.
  now rewrite H.
Qed.

Lemma format_block_hides_the_date_witness :
  Time (format_block
          (Block.mk (mk_datetime 2024 1 1 7 0) (mk_datetime 2024 1 2 7 0) FREE_TIME))
  = ("07:00 AM" ++ EN_DASH ++ "07:00 AM")%string.
Proof.
  apply (proj2 (format_block_hides_the_date 0 0
                  (Block.mk (mk_datetime 2024 1 1 7 0) (mk_datetime 2024 1 2 7 0)
                     FREE_TIME))).
  vm_compute. reflexivity.
Defined.
